(** * Service A: request-metrics middleware and exposition endpoint

    A shallow embedding of [applications/python/service-a/main.py]: the four
    module-level metrics, the [prometheus_middleware] that wraps every request,
    the route handlers and the [/metrics] endpoint.

    Conventions of the embedding.
    - Python floats (clock readings, durations, metric values) are exact
      rationals [Q]; rounding of IEEE doubles is not represented, and
      equalities between metric values are stated with [==].
    - The process state that the code reads and mutates (the global registry,
      the wall clock, the log sink) is an explicit [World]; code that can
      raise or end the process lives in the monad [M].
    - What a request meets outside the program (time spent in the handler,
      the reply of service B, what the framework answers for undeclared
      routes, the constants of the installed library) arrives as an [Env]
      value next to the request. *)

From Stdlib Require Import List String Ascii ZArith QArith Lia Lqa Bool DecimalString Sorted.
From Stdlib Require Import DecimalZ DecimalPos.
Import ListNotations.
Open Scope string_scope.
Open Scope list_scope.

(* ------------------------------------------------------------------------- *)
(** ** Python values *)

Inductive Exception : Type :=
| ValueError (msg : string)
| RequestException (msg : string)
| CollectError (msg : string).

(** The outcome of running a piece of code: a value, a raised exception, or
    the end of the process ([os._exit]). *)
Inductive Result (A : Type) : Type :=
| Ok (a : A)
| Raise (e : Exception)
| Exit (code : Z).

Arguments Ok {A} a.
Arguments Raise {A} e.
Arguments Exit {A} code.

(** [str(n)] for a Python int. *)
Definition str_int (n : Z) : string := NilZero.string_of_int (Z.to_int n).

(** [sep.join(parts)]. *)
Definition join (sep : string) (parts : list string) : string :=
  String.concat sep parts.

(** [s.replace(old, new)] for a one-character [old]. *)
Fixpoint replace_char (old : ascii) (new : string) (s : string) : string :=
  match s with
  | EmptyString => EmptyString
  | String c rest =>
      if Ascii.eqb c old then new ++ replace_char old new rest
      else String c (replace_char old new rest)
  end.

Definition backslash : ascii := ascii_of_nat 92.
Definition newline : ascii := ascii_of_nat 10.
Definition dquote : ascii := ascii_of_nat 34.
Definition str_of (c : ascii) : string := String c EmptyString.

(* ------------------------------------------------------------------------- *)
(** ** Rendering of floats

    [prometheus_client.utils.floatToGoString] returns [repr(d)] for every
    finite float below 1e6.  [repr] of a double is its shortest decimal that
    reads back as the same double; for a value with a short finite decimal
    expansion in the plain-notation range that decimal is the expansion
    itself ("3.0", "0.1", "0.25").  That range is rendered here; every other
    value is left to [float_repr], an abstract stand-in for [repr]. *)

Definition Qabs_lt (q bound : Q) : bool :=
  negb (Qle_bool bound q) && negb (Qle_bool q (- bound)).

(** Smallest [k <= fuel] such that [q * 10^k] is an integer, with that
    integer. *)
Fixpoint decimal_scale (fuel : nat) (q : Q) (k : nat) : option (Z * nat) :=
  let r := Qred q in
  if Pos.eqb (Qden r) 1 then Some (Qnum r, k)
  else match fuel with
       | O => None
       | S fuel' => decimal_scale fuel' (r * (10 # 1)) (S k)
       end.

Fixpoint zeros (n : nat) : string :=
  match n with O => "" | S n' => "0" ++ zeros n' end.

Definition pad_left (width : nat) (s : string) : string :=
  zeros (width - String.length s) ++ s.

(** The plain decimal notation of [n / 10^k]. *)
Definition plain_decimal (n : Z) (k : nat) : string :=
  let sign := if (n <? 0)%Z then "-" else "" in
  let a := Z.abs n in
  let p := (10 ^ Z.of_nat k)%Z in
  let int_part := str_int (a / p) in
  let frac_part :=
    match k with
    | O => "0"
    | _ => pad_left k (str_int (a mod p))
    end in
  sign ++ int_part ++ "." ++ frac_part.

Definition float_repr_plain (q : Q) : option string :=
  if Qeq_bool q 0 then Some "0.0"
  else if Qabs_lt q (1000000 # 1) && negb (Qabs_lt q (1 # 10000)) then
    match decimal_scale 15 q 0 with
    | Some (n, k) =>
        if (Z.abs n <? 10 ^ 15)%Z then Some (plain_decimal n k) else None
    | None => None
    end
  else None.

Section Exposition_format.

(** Python's [repr] on the floats that [float_repr_plain] does not cover. *)
Variable float_repr : Q -> string.

Definition floatToGoString (d : Q) : string :=
  match float_repr_plain d with
  | Some s => s
  | None => float_repr d
  end.

End Exposition_format.

(* ------------------------------------------------------------------------- *)
(** ** Label instances

    A labelled metric of [prometheus_client] keeps its children in the dict
    [_metrics], keyed by the tuple of label values (each passed through
    [str]).  Dicts iterate in insertion order and the exposition follows that
    order, so the dict is an association list that only grows at its end. *)

Definition LabelValues := list string.

Fixpoint labels_eqb (a b : LabelValues) : bool :=
  match a, b with
  | [], [] => true
  | x :: a', y :: b' => String.eqb x y && labels_eqb a' b'
  | _, _ => false
  end.

Definition Children (C : Type) := list (LabelValues * C).

Fixpoint get_child {C : Type} (k : LabelValues) (m : Children C) : option C :=
  match m with
  | [] => None
  | (k', c) :: rest => if labels_eqb k k' then Some c else get_child k rest
  end.

Fixpoint update_child {C : Type} (k : LabelValues) (f : C -> C)
    (m : Children C) : Children C :=
  match m with
  | [] => []
  | (k', c) :: rest =>
      if labels_eqb k k' then (k', f c) :: rest
      else (k', c) :: update_child k f rest
  end.

(** [MetricWrapperBase.labels]: the number of values passed must match
    the declared label names; the child is created on first use. *)
Definition labels {C : Type} (labelnames : list string) (fresh : C)
    (labelvalues : LabelValues) (m : Children C) : Exception + Children C :=
  if Nat.eqb (List.length labelvalues) (List.length labelnames) then
    inr (match get_child labelvalues m with
         | Some _ => m
         | None => m ++ [(labelvalues, fresh)]
         end)
  else inl (ValueError "Incorrect label count").

(* ------------------------------------------------------------------------- *)
(** ** The metric kinds of prometheus_client

    [Counter], [Histogram], [Summary] and [Gauge] are imported by [main.py],
    not defined by it; the definitions below give their per-child state and
    their update operations. *)

Record CounterChild := { c_value : Q; c_created : Q }.
Record HistogramChild := { h_buckets : list Q; h_sum : Q; h_created : Q }.
Record SummaryChild := { s_count : Q; s_sum : Q; s_created : Q }.
Record GaugeChild := { g_value : Q }.

(** Modelled from the spec: [Counter.inc], which main.py imports from
    prometheus_client and does not define.  "For Counter, value must be >= 0
    and is added to the running total": the amount is added to the child's
    value ([counter_add]); a negative amount is refused before anything is
    added (the test is in [Counter_inc] below). *)
Definition counter_add (amount : Q) (c : CounterChild) : CounterChild :=
  {| c_value := c_value c + amount; c_created := c_created c |}.

(** A histogram bound: a finite float or [INF]. *)
Inductive Bound : Type :=
| Finite (q : Q)
| INF.

Definition le_bound (amount : Q) (b : Bound) : bool :=
  match b with
  | Finite q => Qle_bool amount q
  | INF => true
  end.

Definition bound_leb (a b : Bound) : bool :=
  match a, b with
  | Finite x, Finite y => Qle_bool x y
  | _, INF => true
  | INF, Finite _ => false
  end.

Fixpoint bounds_sorted (bs : list Bound) : bool :=
  match bs with
  | a :: (b :: _) as rest => bound_leb a b && bounds_sorted rest
  | _ => true
  end.

Definition is_INF (b : Bound) : bool :=
  match b with INF => true | Finite _ => false end.

(** [Histogram._prepare_buckets]: the buckets must be sorted, [INF] is
    appended when it is not the last one already, and at least two bounds
    must remain. *)
Definition prepare_buckets (source_buckets : list Bound) : Exception + list Bound :=
  if negb (bounds_sorted source_buckets) then
    inl (ValueError "Buckets not in sorted order")
  else
    let buckets :=
      match rev source_buckets with
      | [] => []
      | b :: _ => if is_INF b then source_buckets else source_buckets ++ [INF]
      end in
    if (List.length buckets <? 2)%nat then
      inl (ValueError "Must have at least two buckets")
    else inr buckets.

(** Modelled from the spec: [Histogram.observe], which main.py imports from
    prometheus_client and does not define.  "value is placed into the bucket
    whose upper bound is the smallest bound >= value (plus one overflow +Inf
    bucket), and running sum/count are updated": the bounds are kept sorted
    with [INF] last, and the value is counted in the first bucket, in that
    order, whose bound is >= the value. *)
Fixpoint bucket_inc (bounds : list Bound) (buckets : list Q) (amount : Q) : list Q :=
  match bounds, buckets with
  | b :: bounds', c :: buckets' =>
      if le_bound amount b then (c + 1)%Q :: buckets'
      else c :: bucket_inc bounds' buckets' amount
  | _, _ => buckets
  end.

Definition histogram_observe (bounds : list Bound) (amount : Q)
    (h : HistogramChild) : HistogramChild :=
  {| h_buckets := bucket_inc bounds (h_buckets h) amount;
     h_sum := h_sum h + amount;
     h_created := h_created h |}.

(** The cumulative counts that [Histogram._child_samples] emits: a running
    total over the per-bucket counters, in order of bounds. *)
Fixpoint cumulative (acc : Q) (buckets : list Q) : list Q :=
  match buckets with
  | [] => []
  | c :: rest => (acc + c)%Q :: cumulative (acc + c) rest
  end.

(** The value of the [_count] sample: the running total after the last
    bucket. *)
Definition histogram_count (h : HistogramChild) : Q :=
  fold_left Qplus (h_buckets h) 0%Q.

(** [Summary.observe]: one more observation, the value added to the sum. *)
Definition summary_observe (amount : Q) (s : SummaryChild) : SummaryChild :=
  {| s_count := s_count s + 1; s_sum := s_sum s + amount;
     s_created := s_created s |}.

(** [Gauge.set]. *)
Definition gauge_set (value : Q) (g : GaugeChild) : GaugeChild :=
  {| g_value := value |}.

(* ------------------------------------------------------------------------- *)
(** ** The metrics declared by main.py *)

Record MetricDecl := {
  decl_name : string;
  decl_documentation : string;
  decl_labelnames : list string
}.

Definition http_request_counter_decl : MetricDecl :=
  {| decl_name := "http_requests_total";
     decl_documentation := "Total number of HTTP requests";
     decl_labelnames := ["method"; "path"; "status_code"] |}.

Definition request_duration_histogram_decl : MetricDecl :=
  {| decl_name := "http_request_duration_seconds";
     decl_documentation := "Duration of HTTP requests in seconds";
     decl_labelnames := ["method"; "path"; "status_code"] |}.

(** [buckets=(0.1, 0.5, 1, 5, 10)]. *)
Definition histogram_source_buckets : list Bound :=
  [Finite (1 # 10); Finite (1 # 2); Finite (1 # 1); Finite (5 # 1); Finite (10 # 1)].

Definition upper_bounds : list Bound :=
  match prepare_buckets histogram_source_buckets with
  | inr bs => bs
  | inl _ => []
  end.

Definition request_duration_summary_decl : MetricDecl :=
  {| decl_name := "http_request_duration_summary_seconds";
     decl_documentation := "Summary of HTTP request durations";
     decl_labelnames := ["method"; "path"; "status_code"] |}.

Definition gauge_decl : MetricDecl :=
  {| decl_name := "node_gauge_example";
     decl_documentation := "Example gauge tracking async task duration";
     decl_labelnames := ["method"; "status"] |}.

(** The children of the four module-level metric objects. *)
Record Registry := {
  http_request_counter : Children CounterChild;
  request_duration_histogram : Children HistogramChild;
  request_duration_summary : Children SummaryChild;
  gauge : Children GaugeChild
}.

Definition empty_registry : Registry :=
  {| http_request_counter := []; request_duration_histogram := [];
     request_duration_summary := []; gauge := [] |}.

(* ------------------------------------------------------------------------- *)
(** ** HTTP values *)

(** [scope_path] is the path the router matches; [url_path] is
    [request.url.path], the text the middleware reads.  For a plain path the
    two are the same; they differ when the path holds characters that URL
    parsing drops or cuts at (tab, line feed, [?], [#]). *)
Record Request := { method : string; scope_path : string; url_path : string }.

Inductive JSON : Type :=
| JStr (s : string)
| JInt (n : Z).

(** The content a handler gives to its response: a dict rendered as JSON, or
    text. *)
Inductive Content : Type :=
| JSONContent (obj : list (string * JSON))
| TextContent (text : string).

(** [media_type] is what the [content-type] header is made of; a media type
    that names its charset is sent as it is. *)
Record Response := {
  status_code : Z;
  media_type : string;
  content : Content
}.

(** FastAPI wraps a returned dict in a [JSONResponse] with status 200. *)
Definition JSONResponse (status : Z) (obj : list (string * JSON)) : Response :=
  {| status_code := status; media_type := "application/json";
     content := JSONContent obj |}.

Definition PlainTextResponse (text : string) : Response :=
  {| status_code := 200; media_type := "text/plain"; content := TextContent text |}.

Definition has_key (key : string) (c : Content) : bool :=
  match c with
  | JSONContent obj => existsb (fun kv => String.eqb (fst kv) key) obj
  | TextContent _ => false
  end.

(* ------------------------------------------------------------------------- *)
(** ** Process state and effects *)

Record World := {
  registry : Registry;
  now : Q;              (* what [time.time()] returns *)
  log : list string     (* lines handed to loguru *)
}.

Definition M (A : Type) : Type := World -> Result A * World.

Definition ret {A : Type} (a : A) : M A := fun w => (Ok a, w).

Definition bind {A B : Type} (m : M A) (k : A -> M B) : M B :=
  fun w =>
    match m w with
    | (Ok a, w') => k a w'
    | (Raise e, w') => (Raise e, w')
    | (Exit code, w') => (Exit code, w')
    end.

Definition raise {A : Type} (e : Exception) : M A := fun w => (Raise e, w).

Notation "x <- m ;; k" := (bind m (fun x => k))
  (at level 61, m at next level, right associativity).
Notation "m ;;; k" := (bind m (fun _ => k))
  (at level 61, right associativity).

Definition set_registry (r : Registry) (w : World) : World :=
  {| registry := r; now := now w; log := log w |}.

Definition time_time : M Q := fun w => (Ok (now w), w).

(** Wall-clock time passing while the coroutine is suspended. *)
Definition sleep (seconds : Q) : M unit :=
  fun w => (Ok tt, {| registry := registry w; now := now w + seconds; log := log w |}).

Definition logger (level msg : string) : M unit :=
  fun w => (Ok tt, {| registry := registry w; now := now w;
                      log := log w ++ [(level ++ " " ++ msg)%string] |}).

(** *** The metric objects as the code uses them: [metric.labels(...)]
    returns the child (here its key), the update methods mutate it. *)

Definition set_counter (m : Children CounterChild) (r : Registry) : Registry :=
  {| http_request_counter := m;
     request_duration_histogram := request_duration_histogram r;
     request_duration_summary := request_duration_summary r;
     gauge := gauge r |}.

Definition set_histogram (m : Children HistogramChild) (r : Registry) : Registry :=
  {| http_request_counter := http_request_counter r;
     request_duration_histogram := m;
     request_duration_summary := request_duration_summary r;
     gauge := gauge r |}.

Definition set_summary (m : Children SummaryChild) (r : Registry) : Registry :=
  {| http_request_counter := http_request_counter r;
     request_duration_histogram := request_duration_histogram r;
     request_duration_summary := m;
     gauge := gauge r |}.

Definition set_gauge (m : Children GaugeChild) (r : Registry) : Registry :=
  {| http_request_counter := http_request_counter r;
     request_duration_histogram := request_duration_histogram r;
     request_duration_summary := request_duration_summary r;
     gauge := m |}.

(** A new child records its creation time ([_created = time.time()]). *)
Definition new_counter (t : Q) : CounterChild := {| c_value := 0; c_created := t |}.
Definition new_histogram (t : Q) : HistogramChild :=
  {| h_buckets := map (fun _ => 0%Q) upper_bounds; h_sum := 0; h_created := t |}.
Definition new_summary (t : Q) : SummaryChild :=
  {| s_count := 0; s_sum := 0; s_created := t |}.
Definition new_gauge : GaugeChild := {| g_value := 0 |}.

Definition Counter_labels (labelvalues : LabelValues) : M LabelValues :=
  fun w =>
    match labels (decl_labelnames http_request_counter_decl) (new_counter (now w))
                 labelvalues (http_request_counter (registry w)) with
    | inl e => (Raise e, w)
    | inr m => (Ok labelvalues, set_registry (set_counter m (registry w)) w)
    end.

Definition Counter_inc (child : LabelValues) (amount : Q) : M unit :=
  fun w =>
    if Qle_bool 0 amount then
      (Ok tt,
       set_registry
         (set_counter
            (update_child child (counter_add amount)
               (http_request_counter (registry w)))
            (registry w)) w)
    else
      (Raise (ValueError "Counters can only be incremented by non-negative amounts."), w).

Definition Histogram_labels (labelvalues : LabelValues) : M LabelValues :=
  fun w =>
    match labels (decl_labelnames request_duration_histogram_decl)
                 (new_histogram (now w)) labelvalues
                 (request_duration_histogram (registry w)) with
    | inl e => (Raise e, w)
    | inr m => (Ok labelvalues, set_registry (set_histogram m (registry w)) w)
    end.

Definition Histogram_observe (child : LabelValues) (amount : Q) : M unit :=
  fun w =>
    (Ok tt,
     set_registry
       (set_histogram
          (update_child child (histogram_observe upper_bounds amount)
             (request_duration_histogram (registry w)))
          (registry w)) w).

Definition Summary_labels (labelvalues : LabelValues) : M LabelValues :=
  fun w =>
    match labels (decl_labelnames request_duration_summary_decl)
                 (new_summary (now w)) labelvalues
                 (request_duration_summary (registry w)) with
    | inl e => (Raise e, w)
    | inr m => (Ok labelvalues, set_registry (set_summary m (registry w)) w)
    end.

Definition Summary_observe (child : LabelValues) (amount : Q) : M unit :=
  fun w =>
    (Ok tt,
     set_registry
       (set_summary
          (update_child child (summary_observe amount)
             (request_duration_summary (registry w)))
          (registry w)) w).

Definition Gauge_labels (labelvalues : LabelValues) : M LabelValues :=
  fun w =>
    match labels (decl_labelnames gauge_decl) new_gauge labelvalues
                 (gauge (registry w)) with
    | inl e => (Raise e, w)
    | inr m => (Ok labelvalues, set_registry (set_gauge m (registry w)) w)
    end.

Definition Gauge_set (child : LabelValues) (value : Q) : M unit :=
  fun w =>
    (Ok tt,
     set_registry
       (set_gauge (update_child child (gauge_set value) (gauge (registry w)))
          (registry w)) w).

(* ------------------------------------------------------------------------- *)
(** ** Middleware (metrics) *)

(** [prometheus_middleware(request, call_next)].  [labels] passes each
    label value through [str]: the status code enters as [str_int]. *)
Definition prometheus_middleware (call_next : Request -> M Response)
    (request : Request) : M Response :=
  start_time <- time_time ;;
  response <- call_next request ;;
  end_time <- time_time ;;
  let duration := (end_time - start_time)%Q in
  let method := method request in
  let path := url_path request in
  let status_code := status_code response in
  c <- Counter_labels [method; path; str_int status_code] ;;
  Counter_inc c 1 ;;;
  h <- Histogram_labels [method; path; str_int status_code] ;;
  Histogram_observe h duration ;;;
  s <- Summary_labels [method; path; str_int status_code] ;;
  Summary_observe s duration ;;;
  ret response.

(* ------------------------------------------------------------------------- *)
(** ** Text exposition ([prometheus_client.exposition.generate_latest]) *)

Definition DQ : string := str_of dquote.

Definition escape_help (s : string) : string :=
  replace_char newline (str_of backslash ++ "n")
    (replace_char backslash (str_of backslash ++ str_of backslash) s).

Definition escape_label_value (s : string) : string :=
  replace_char dquote (str_of backslash ++ DQ) (escape_help s).

(** [sorted(labels.items())]: a stable insertion sort on the label name. *)
Fixpoint insert_label (x : string * string) (l : list (string * string)) :=
  match l with
  | [] => [x]
  | y :: rest =>
      if String.leb (fst x) (fst y) then x :: l else y :: insert_label x rest
  end.

Definition sort_labels (l : list (string * string)) : list (string * string) :=
  fold_right insert_label [] l.

Definition label_pair (kv : string * string) : string :=
  fst kv ++ "=" ++ DQ ++ escape_label_value (snd kv) ++ DQ.

Definition labelstr (lbls : list (string * string)) : string :=
  match lbls with
  | [] => ""
  | _ => "{" ++ join "," (map label_pair (sort_labels lbls)) ++ "}"
  end.

(** [name.endswith(suffix)] then [name[:-len(suffix)]], else [name]. *)
Fixpoint strip_suffix (suffix s : string) : string :=
  if String.eqb s suffix then ""
  else match s with
       | EmptyString => EmptyString
       | String c rest => String c (strip_suffix suffix rest)
       end.

Definition help_line (name doc : string) : string :=
  "# HELP " ++ name ++ " " ++ escape_help doc.

Definition type_line (name typ : string) : string :=
  "# TYPE " ++ name ++ " " ++ typ.

(** What [REGISTRY.collect()] yields: the families of the collectors that
    prometheus_client registers by itself (process, platform, GC; their
    rendered lines come from the environment), then the four metrics of
    main.py in declaration order. *)
Inductive MetricFamily : Type :=
| PlatformMetric (lines : list string)
| CounterMetric (d : MetricDecl) (m : Children CounterChild)
| HistogramMetric (d : MetricDecl) (bounds : list Bound) (m : Children HistogramChild)
| SummaryMetric (d : MetricDecl) (m : Children SummaryChild)
| GaugeMetric (d : MetricDecl) (m : Children GaugeChild).

Definition collect (platform : list (list string)) (r : Registry) : list MetricFamily :=
  map PlatformMetric platform ++
  [CounterMetric http_request_counter_decl (http_request_counter r);
   HistogramMetric request_duration_histogram_decl upper_bounds
     (request_duration_histogram r);
   SummaryMetric request_duration_summary_decl (request_duration_summary r);
   GaugeMetric gauge_decl (gauge r)].

(** The loop of [generate_latest]: every family is serialized in turn; an
    exception raised while serializing one family is re-raised. *)
Fixpoint serialize_metrics (serialize : MetricFamily -> Exception + list string)
    (families : list MetricFamily) : Exception + list string :=
  match families with
  | [] => inr []
  | f :: rest =>
      match serialize f with
      | inl e => inl e
      | inr ls =>
          match serialize_metrics serialize rest with
          | inl e => inl e
          | inr ls' => inr (ls ++ ls')
          end
      end
  end.

(** [''.join(output)], every element of [output] ending in a newline. *)
Definition join_lines (ls : list string) : string :=
  String.concat "" (map (fun l => (l ++ str_of newline)%string) ls).

(** [generate_latest] over a given serializer of one family. *)
Definition generate_latest_with
    (serialize : MetricFamily -> Exception + list string)
    (platform : list (list string)) (r : Registry) : Exception + string :=
  match serialize_metrics serialize (collect platform r) with
  | inl e => inl e
  | inr ls => inr (join_lines ls)
  end.

Section Exposition.

Variable float_repr : Q -> string.

Definition sample_line (name : string) (lbls : list (string * string))
    (value : Q) : string :=
  name ++ labelstr lbls ++ " " ++ floatToGoString float_repr value.

Definition bound_text (b : Bound) : string :=
  match b with
  | INF => "+Inf"
  | Finite q => floatToGoString float_repr q
  end.

(** The [_created] samples of a family follow it as a gauge of their own. *)
Definition created_block (name doc : string) (lines : list string) : list string :=
  match lines with
  | [] => []
  | _ => help_line (name ++ "_created") doc
         :: type_line (name ++ "_created") "gauge" :: lines
  end.

Definition counter_lines (d : MetricDecl) (m : Children CounterChild) : list string :=
  let name := strip_suffix "_total" (decl_name d) in
  let lbl (lv : LabelValues) := combine (decl_labelnames d) lv in
  help_line (name ++ "_total") (decl_documentation d)
  :: type_line (name ++ "_total") "counter"
  :: map (fun kc => sample_line (name ++ "_total") (lbl (fst kc)) (c_value (snd kc))) m
  ++ created_block name (decl_documentation d)
       (map (fun kc => sample_line (name ++ "_created") (lbl (fst kc))
                         (c_created (snd kc))) m).

Definition histogram_child_lines (name : string) (lbls : list (string * string))
    (bounds : list Bound) (h : HistogramChild) : list string :=
  map (fun bc => sample_line (name ++ "_bucket")
                   (lbls ++ [("le", bound_text (fst bc))]) (snd bc))
      (combine bounds (cumulative 0 (h_buckets h)))
  ++ [sample_line (name ++ "_count") lbls (histogram_count h);
      sample_line (name ++ "_sum") lbls (h_sum h)].

Definition histogram_lines (d : MetricDecl) (bounds : list Bound)
    (m : Children HistogramChild) : list string :=
  let name := decl_name d in
  let lbl (lv : LabelValues) := combine (decl_labelnames d) lv in
  help_line name (decl_documentation d)
  :: type_line name "histogram"
  :: flat_map (fun kc => histogram_child_lines name (lbl (fst kc)) bounds (snd kc)) m
  ++ created_block name (decl_documentation d)
       (map (fun kc => sample_line (name ++ "_created") (lbl (fst kc))
                         (h_created (snd kc))) m).

Definition summary_lines (d : MetricDecl) (m : Children SummaryChild) : list string :=
  let name := decl_name d in
  let lbl (lv : LabelValues) := combine (decl_labelnames d) lv in
  help_line name (decl_documentation d)
  :: type_line name "summary"
  :: flat_map (fun kc => [sample_line (name ++ "_count") (lbl (fst kc)) (s_count (snd kc));
                          sample_line (name ++ "_sum") (lbl (fst kc)) (s_sum (snd kc))]) m
  ++ created_block name (decl_documentation d)
       (map (fun kc => sample_line (name ++ "_created") (lbl (fst kc))
                         (s_created (snd kc))) m).

Definition gauge_lines (d : MetricDecl) (m : Children GaugeChild) : list string :=
  let name := decl_name d in
  help_line name (decl_documentation d)
  :: type_line name "gauge"
  :: map (fun kc => sample_line name (combine (decl_labelnames d) (fst kc))
                      (g_value (snd kc))) m.

Definition metric_lines (f : MetricFamily) : list string :=
  match f with
  | PlatformMetric lines => lines
  | CounterMetric d m => counter_lines d m
  | HistogramMetric d bounds m => histogram_lines d bounds m
  | SummaryMetric d m => summary_lines d m
  | GaugeMetric d m => gauge_lines d m
  end.

(** The exposition document as its lines, and as the response body. *)
Definition exposition_lines (platform : list (list string)) (r : Registry) : list string :=
  flat_map metric_lines (collect platform r).

Definition generate_latest (platform : list (list string)) (r : Registry)
    : Exception + string :=
  generate_latest_with (fun f => inr (metric_lines f)) platform r.

End Exposition.

(* ------------------------------------------------------------------------- *)
(** ** Routes *)

(** What one request meets outside the program, and what the installed
    library brings. *)
Record Env := {
  handler_seconds : Q;               (* wall-clock time spent below the middleware *)
  task_seconds : Q;                  (* the draw of [random.uniform(0, 5)] *)
  service_b : Exception + string;    (* [requests.get(...)]: exception or [.text] *)
  unrouted : Response;               (* the framework's answer when no route matches *)
  platform : list (list string);     (* rendered families of the default collectors *)
  CONTENT_TYPE_LATEST : string       (* the constant of that name in the installed
                                        prometheus_client *)
}.

Definition logging_example : M unit :=
  logger "INFO" "Here are the logs" ;;;
  logger "INFO" "Please have a look" ;;;
  logger "INFO" "This is just for testing".

Definition root : M Response :=
  ret (JSONResponse 200 [("status", JStr "🏃- Running")]).

Definition healthy : M Response :=
  ret (JSONResponse 200
         [("name", JStr "👀 - Observability 🔥 - Abhishek Veeramalla");
          ("status", JStr "healthy")]).

Definition server_error : M Response :=
  ret (JSONResponse 500
         [("error", JStr "Internal server error"); ("statusCode", JInt 500)]).

Definition not_found : M Response :=
  ret (JSONResponse 404 [("error", JStr "Not Found"); ("statusCode", JInt 404)]).

Definition logs : M Response :=
  logging_example ;;;
  ret (JSONResponse 200 [("objective", JStr "To generate logs")]).

(** [os._exit(1)]. *)
Definition os_exit {A : Type} (code : Z) : M A := fun w => (Exit code, w).

Definition crash : M Response :=
  logger "ERROR" "Intentionally crashing the server..." ;;;
  os_exit 1.

Definition simulate_async_task (env : Env) : M unit :=
  sleep (task_seconds env).

(** [with gauge.labels(request.method, "running").time(): ...]: on leaving
    the block the gauge is set to [max(elapsed, 0)]. *)
Definition example (env : Env) (request : Request) : M Response :=
  g <- Gauge_labels [method request; "running"] ;;
  timer_start <- time_time ;;
  simulate_async_task env ;;;
  timer_stop <- time_time ;;
  let elapsed := (timer_stop - timer_start)%Q in
  Gauge_set g (if Qle_bool 0 elapsed then elapsed else 0%Q) ;;;
  ret (PlainTextResponse "Async task completed").

(** [metrics()]: the media type is [CONTENT_TYPE_LATEST], a constant that
    main.py imports (its value comes with the installed library and is an
    argument here); the body is whatever [generate_latest()] returns; nothing
    catches an exception it raises. *)
Definition metrics (content_type : string)
    (generate_latest : Registry -> Exception + string) : M Response :=
  fun w =>
    match generate_latest (registry w) with
    | inl e => (Raise e, w)
    | inr body =>
        (Ok {| status_code := 200; media_type := content_type;
               content := TextContent body |}, w)
    end.

Definition str_exception (e : Exception) : string :=
  match e with
  | ValueError msg => msg
  | RequestException msg => msg
  | CollectError msg => msg
  end.

Definition call_service_b (env : Env) : M Response :=
  match service_b env with
  | inr text => ret (PlainTextResponse ("Service B says: " ++ text))
  | inl e =>
      logger "ERROR" (str_exception e) ;;;
      ret (JSONResponse 500 [("error", JStr "Error communicating with Service B")])
  end.

(** What [call_next] stands for in the running service: the router with the
    routes declared by [@app.get], matching on the scope path.  [serialize]
    is what [generate_latest] does with one family of the registry; when it
    raises, [metrics] raises. *)
Definition app_with (serialize : MetricFamily -> Exception + list string)
    (env : Env) (request : Request) : M Response :=
  sleep (handler_seconds env) ;;;
  if negb (String.eqb (method request) "GET") then ret (unrouted env)
  else
    let path := scope_path request in
    if String.eqb path "/" then root
    else if String.eqb path "/healthy" then healthy
    else if String.eqb path "/serverError" then server_error
    else if String.eqb path "/notFound" then not_found
    else if String.eqb path "/logs" then logs
    else if String.eqb path "/crash" then crash
    else if String.eqb path "/example" then example env request
    else if String.eqb path "/metrics" then
      metrics (CONTENT_TYPE_LATEST env)
        (generate_latest_with serialize (platform env))
    else if String.eqb path "/call-service-b" then call_service_b env
    else ret (unrouted env).

(** One request through the middleware and the router. *)
Definition serve_with (serialize : MetricFamily -> Exception + list string)
    (env : Env) (request : Request) : M Response :=
  prometheus_middleware (app_with serialize env) request.

Section Application.

Variable float_repr : Q -> string.

(** The router over the serializer of the text format, which renders every
    family of the four metrics of main.py and raises on none. *)
Definition app (env : Env) (request : Request) : M Response :=
  app_with (fun f => inr (metric_lines float_repr f)) env request.

(** One request through the middleware and the router. *)
Definition serve (env : Env) (request : Request) : M Response :=
  prometheus_middleware (app env) request.

(** Requests served one after the other; the process is gone after an
    [Exit]. *)
Fixpoint run (requests : list (Env * Request)) (w : World)
    : list (Result Response) * World :=
  match requests with
  | [] => ([], w)
  | (env, request) :: rest =>
      match serve env request w with
      | (Exit code, w') => ([Exit code], w')
      | (outcome, w') =>
          let (outcomes, w'') := run rest w' in
          (outcome :: outcomes, w'')
      end
  end.

End Application.

(** The status line the client sees: the response's own status, 500 from the
    server's error handler when the application raised, none when the
    process ended. *)
Definition http_status (outcome : Result Response) : option Z :=
  match outcome with
  | Ok response => Some (status_code response)
  | Raise _ => Some 500%Z
  | Exit _ => None
  end.

Definition initial_world (t0 : Q) : World :=
  {| registry := empty_registry; now := t0; log := [] |}.

(** Readings of the registry. *)
Definition counter_value (r : Registry) (lv : LabelValues) : Q :=
  match get_child lv (http_request_counter r) with
  | Some c => c_value c
  | None => 0
  end.

Definition histogram_count_of (r : Registry) (lv : LabelValues) : Q :=
  match get_child lv (request_duration_histogram r) with
  | Some h => histogram_count h
  | None => 0
  end.

Definition histogram_sum_of (r : Registry) (lv : LabelValues) : Q :=
  match get_child lv (request_duration_histogram r) with
  | Some h => h_sum h
  | None => 0
  end.

Definition summary_count_of (r : Registry) (lv : LabelValues) : Q :=
  match get_child lv (request_duration_summary r) with
  | Some s => s_count s
  | None => 0
  end.

Definition summary_sum_of (r : Registry) (lv : LabelValues) : Q :=
  match get_child lv (request_duration_summary r) with
  | Some s => s_sum s
  | None => 0
  end.

(** A GET request for a plain path. *)
Definition GET (path : string) : Request :=
  {| method := "GET"; scope_path := path; url_path := path |}.

Definition quiet_env : Env :=
  {| handler_seconds := 0; task_seconds := 0;
     service_b := inl (RequestException "connection refused");
     unrouted := JSONResponse 404 [("detail", JStr "Not Found")];
     platform := [];
     CONTENT_TYPE_LATEST := "text/plain; version=0.0.4; charset=utf-8" |}.

Definition no_repr : Q -> string := fun _ => "?".

(* ------------------------------------------------------------------------- *)
(** ** Notions used to state the properties *)

(** The child: the one found, or the fresh one. *)
Definition child_or {C : Type} (fresh : C) (o : option C) : C :=
  match o with Some c => c | None => fresh end.

(** [metric.labels(k)] followed by one update of the returned child. *)
Definition touch {C : Type} (fresh : C) (f : C -> C) (k : LabelValues)
    (m : Children C) : Children C :=
  update_child k f
    (match get_child k m with Some _ => m | None => m ++ [(k, fresh)] end).

(** The label instance of a request/response pair. *)
Definition request_labels (request : Request) (response : Response) : LabelValues :=
  [method request; url_path request; str_int (status_code response)].

(** One increment and two observations on the label instance [lv]. *)
Definition observe_request (lv : LabelValues) (duration : Q) (w : World) : World :=
  {| registry :=
       {| http_request_counter :=
            touch (new_counter (now w)) (counter_add 1) lv
              (http_request_counter (registry w));
          request_duration_histogram :=
            touch (new_histogram (now w)) (histogram_observe upper_bounds duration) lv
              (request_duration_histogram (registry w));
          request_duration_summary :=
            touch (new_summary (now w)) (summary_observe duration) lv
              (request_duration_summary (registry w));
          gauge := gauge (registry w) |};
     now := now w;
     log := log w |}.

(** What the middleware does with the outcome of the handler. *)
Definition after_handler (request : Request) (start_time : Q)
    (handled : Result Response * World) : Result Response * World :=
  match handled with
  | (Ok response, w1) =>
      (Ok response,
       observe_request (request_labels request response) (now w1 - start_time) w1)
  | (Raise e, w1) => (Raise e, w1)
  | (Exit code, w1) => (Exit code, w1)
  end.

(** The index of the bucket that [Histogram.observe] increments: where its
    loop over the bounds stops. *)
Fixpoint first_bucket (bounds : list Bound) (amount : Q) : option nat :=
  match bounds with
  | [] => None
  | b :: rest =>
      if le_bound amount b then Some O
      else option_map S (first_bucket rest amount)
  end.

(** The spec's wording of the bucket an observation belongs to: "the bucket
    whose upper bound is the smallest bound >= value". *)
Definition smallest_bound_ge (bounds : list Bound) (value : Q) (b : Bound) : Prop :=
  In b bounds /\ le_bound value b = true /\
  forall b', In b' bounds -> le_bound value b' = true -> bound_leb b b' = true.

(** A histogram child with one bucket per bound and no negative count. *)
Definition wf_histogram (h : HistogramChild) : Prop :=
  List.length (h_buckets h) = List.length upper_bounds /\
  Forall (Qle 0) (h_buckets h).

(** A label instance of the three request metrics: method, path, status. *)
Definition LabelInstance : Type := string * string * string.

Definition labels_of (li : LabelInstance) : LabelValues :=
  let '(m, p, s) := li in [m; p; s].

Definition same_instance (li : LabelInstance) (o : LabelInstance * Q) : bool :=
  labels_eqb (labels_of (fst o)) (labels_of li).

(** The values recorded against [li], in order. *)
Definition amounts_for (li : LabelInstance) (os : list (LabelInstance * Q)) : list Q :=
  map snd (filter (same_instance li) os).

Definition Qsum (l : list Q) : Q := fold_left Qplus l 0.

(** [http_request_counter.labels(m, p, s).inc(amount)]. *)
Definition counter_observe (li : LabelInstance) (amount : Q) : M unit :=
  c <- Counter_labels (labels_of li) ;;
  Counter_inc c amount.

Fixpoint counter_observations (os : list (LabelInstance * Q)) : M unit :=
  match os with
  | [] => ret tt
  | o :: rest => counter_observe (fst o) (snd o) ;;; counter_observations rest
  end.

(** [request_duration_histogram.labels(m, p, s).observe(amount)]. *)
Definition histogram_observation (li : LabelInstance) (amount : Q) : M unit :=
  h <- Histogram_labels (labels_of li) ;;
  Histogram_observe h amount.

Fixpoint histogram_observations (os : list (LabelInstance * Q)) : M unit :=
  match os with
  | [] => ret tt
  | o :: rest => histogram_observation (fst o) (snd o) ;;; histogram_observations rest
  end.

(** The histogram child of a label instance; before its first observation it
    is the child that [labels] would create. *)
Definition histogram_child (w : World) (li : LabelInstance) : HistogramChild :=
  child_or (new_histogram (now w))
    (get_child (labels_of li) (request_duration_histogram (registry w))).

(** A child after a run of observations. *)
Definition observe_all (amounts : list Q) (h : HistogramChild) : HistogramChild :=
  fold_left (fun h a => histogram_observe upper_bounds a h) amounts h.

(** The three request metrics of two registries are the same. *)
Definition same_request_metrics (r r' : Registry) : Prop :=
  http_request_counter r' = http_request_counter r /\
  request_duration_histogram r' = request_duration_histogram r /\
  request_duration_summary r' = request_duration_summary r.

(** Every histogram child has one bucket per bound, none negative. *)
Definition wf_registry (r : Registry) : Prop :=
  Forall (fun kc => wf_histogram (snd kc)) (request_duration_histogram r).

(** Counter value, histogram count and summary count agree on every label
    instance. *)
Definition counts_agree (r : Registry) : Prop :=
  forall lv,
    counter_value r lv == histogram_count_of r lv /\
    counter_value r lv == summary_count_of r lv.

Definition Inv (w : World) : Prop :=
  wf_registry (registry w) /\ counts_agree (registry w).

(** The outcome is a response with status [s]. *)
Definition completed_with (s : Z) (outcome : Result Response) : Prop :=
  exists response, outcome = Ok response /\ status_code response = s.

(** The request has method [m] and path [p]. *)
Definition request_on (m p : string) (er : Env * Request) : Prop :=
  method (snd er) = m /\ url_path (snd er) = p.

(** [body.splitlines()]. *)
Fixpoint splitlines (s : string) : list string :=
  match s with
  | EmptyString => []
  | String c rest =>
      if Ascii.eqb c newline then "" :: splitlines rest
      else match splitlines rest with
           | [] => [String c ""]
           | l :: ls => String c l :: ls
           end
  end.

(** The sample line of [http_requests_total] for a GET request, with the
    value as text. *)
Definition requests_total_line (path status value : string) : string :=
  "http_requests_total{method=" ++ DQ ++ "GET" ++ DQ ++
  ",path=" ++ DQ ++ path ++ DQ ++
  ",status_code=" ++ DQ ++ status ++ DQ ++ "} " ++ value.

Definition healthy_response : Response :=
  JSONResponse 200
    [("name", JStr "👀 - Observability 🔥 - Abhishek Veeramalla");
     ("status", JStr "healthy")].

Definition not_found_response : Response :=
  JSONResponse 404 [("error", JStr "Not Found"); ("statusCode", JInt 404)].

(** The response of [metrics()] around a body. *)
Definition metrics_response (content_type body : string) : Response :=
  {| status_code := 200; media_type := content_type;
     content := TextContent body |}.

(** A serializer that cannot render histograms and renders the rest. *)
Definition failing_on_histogram (f : MetricFamily) : Exception + list string :=
  match f with
  | HistogramMetric _ _ _ => inl (CollectError "cannot serialize histogram")
  | _ => inr (metric_lines no_repr f)
  end.

Definition three_healthy (e1 e2 e3 : Env) : list (Env * Request) :=
  [(e1, GET "/healthy"); (e2, GET "/healthy"); (e3, GET "/healthy")].

(** The sum of [http_requests_total] over all its label instances. *)
Definition total_requests (r : Registry) : Q :=
  Qsum (map (fun kc => c_value (snd kc)) (http_request_counter r)).

Definition is_response (outcome : Result Response) : bool :=
  match outcome with
  | Ok _ => true
  | _ => false
  end.

(** How many of the requests were answered with a response. *)
Definition answered (outcomes : list (Result Response)) : nat :=
  List.length (filter is_response outcomes).

(** The paths that have an [@app.get] route. *)
Definition declared_paths : list string :=
  ["/"; "/healthy"; "/serverError"; "/notFound"; "/logs"; "/crash"; "/example";
   "/metrics"; "/call-service-b"].

(** The value of a label instance of [node_gauge_example]. *)
Definition gauge_value (r : Registry) (lv : LabelValues) : Q :=
  match get_child lv (gauge r) with
  | Some g => g_value g
  | None => 0
  end.

(** The sums of histogram and summary agree on every label instance. *)
Definition sums_agree (r : Registry) : Prop :=
  forall lv, histogram_sum_of r lv == summary_sum_of r lv.

(** The counter of [r'] has every label instance of [r], none with a smaller
    value. *)
Definition counter_grew (r r' : Registry) : Prop :=
  forall lv,
    counter_value r lv <= counter_value r' lv /\
    (get_child lv (http_request_counter r) <> None ->
     get_child lv (http_request_counter r') <> None).

(** The gauge has no child, or the single child (GET, running) with a value
    that is not negative. *)
Definition gauge_single (r : Registry) : Prop :=
  gauge r = [] \/
  exists g, gauge r = [(["GET"; "running"], g)] /\ 0 <= g_value g.

(** What [/example] sets the gauge to: the time the task took, by the timer. *)
Definition timed (env : Env) (w : World) : Q :=
  let t := now w + handler_seconds env in
  let elapsed := t + task_seconds env - t in
  if Qle_bool 0 elapsed then elapsed else 0.


(** The routes whose handler returns a constant. *)
Definition static_paths : list string :=
  ["/"; "/healthy"; "/serverError"; "/notFound"].

(** The integer a JSON body gives under [key], if any. *)
Definition json_int (key : string) (c : Content) : option Z :=
  match c with
  | JSONContent obj =>
      match find (fun kv => String.eqb (fst kv) key) obj with
      | Some (_, JInt n) => Some n
      | _ => None
      end
  | TextContent _ => None
  end.

(** Values that releases of prometheus_client give [CONTENT_TYPE_LATEST]. *)
Definition content_type_0_0_4 : string := "text/plain; version=0.0.4; charset=utf-8".
Definition content_type_1_0_0 : string := "text/plain; version=1.0.0; charset=utf-8".

Definition with_content_type (content_type : string) (env : Env) : Env :=
  {| handler_seconds := handler_seconds env; task_seconds := task_seconds env;
     service_b := service_b env; unrouted := unrouted env; platform := platform env;
     CONTENT_TYPE_LATEST := content_type |}.


(* ========================================================================= *)
(** * Properties *)

(** ** Renderings and bounds, evaluated *)

Example floatToGoString_3 r : floatToGoString r (3 # 1) = "3.0".
Proof. reflexivity. Qed.
Example floatToGoString_tenth r : floatToGoString r (1 # 10) = "0.1".
Proof. reflexivity. Qed.
Example floatToGoString_quarter r : floatToGoString r (-5 # 4) = "-1.25".
Proof. reflexivity. Qed.
Example floatToGoString_small r : floatToGoString r (3 # 400) = "0.0075".
Proof. reflexivity. Qed.
Example floatToGoString_third : floatToGoString (fun _ => "?") (1 # 3) = "?".
Proof. reflexivity. Qed.

Example upper_bounds_eq :
  upper_bounds =
  [Finite (1 # 10); Finite (1 # 2); Finite (1 # 1); Finite (5 # 1);
   Finite (10 # 1); INF].
Proof. reflexivity. Qed.

(** ** Label instances as an association list *)

Lemma labels_eqb_eq (a b : LabelValues) : labels_eqb a b = true <-> a = b.
Proof.
  revert b; induction a as [|x a IH]; intros [|y b]; simpl;
    try (split; [discriminate | congruence]); try tauto.
  rewrite andb_true_iff, IH, String.eqb_eq.
  split; [intros [-> ->]; reflexivity | intros E; inversion E; auto].
Qed.

Lemma labels_eqb_refl (a : LabelValues) : labels_eqb a a = true.
Proof. apply labels_eqb_eq; reflexivity. Qed.

Lemma labels_eqb_neq (a b : LabelValues) : a <> b -> labels_eqb a b = false.
Proof.
  intros N; destruct (labels_eqb a b) eqn:E; [|reflexivity].
  apply labels_eqb_eq in E; contradiction.
Qed.

Section Children_lemmas.

Context {C : Type}.
Implicit Types (m : Children C) (k : LabelValues) (f : C -> C).

Lemma get_child_app_fresh m k k' (c : C) :
  get_child k m = None ->
  get_child k' (m ++ [(k, c)]) =
  if labels_eqb k' k then Some c else get_child k' m.
Proof.
  induction m as [|[k0 c0] m IH]; simpl; intros H.
  - reflexivity.
  - destruct (labels_eqb k k0) eqn:E; [discriminate|].
    destruct (labels_eqb k' k0) eqn:E'.
    + apply labels_eqb_eq in E'; subst k0.
      destruct (labels_eqb k' k) eqn:E2; [|reflexivity].
      apply labels_eqb_eq in E2; subst k'.
      rewrite labels_eqb_refl in E; discriminate.
    + apply IH, H.
Qed.

Lemma get_child_update_same m k f :
  get_child k (update_child k f m) = option_map f (get_child k m).
Proof.
  induction m as [|[k0 c0] m IH]; simpl; [reflexivity|].
  destruct (labels_eqb k k0) eqn:E; simpl; rewrite E; auto.
Qed.

Lemma get_child_update_other m k k' f :
  k' <> k -> get_child k' (update_child k f m) = get_child k' m.
Proof.
  intros N; induction m as [|[k0 c0] m IH]; simpl; [reflexivity|].
  destruct (labels_eqb k k0) eqn:E; simpl.
  - apply labels_eqb_eq in E; subst k0.
    rewrite labels_eqb_neq by assumption; reflexivity.
  - rewrite IH; reflexivity.
Qed.

Lemma get_child_touch_same (fresh : C) m k f :
  get_child k (touch fresh f k m) = Some (f (child_or fresh (get_child k m))).
Proof.
  unfold touch. rewrite get_child_update_same.
  destruct (get_child k m) eqn:E; simpl.
  - rewrite E; reflexivity.
  - rewrite get_child_app_fresh by assumption.
    rewrite labels_eqb_refl; reflexivity.
Qed.

Lemma get_child_touch_other (fresh : C) m k k' f :
  k' <> k -> get_child k' (touch fresh f k m) = get_child k' m.
Proof.
  intros N. unfold touch. rewrite get_child_update_other by assumption.
  destruct (get_child k m) eqn:E; [reflexivity|].
  rewrite get_child_app_fresh by assumption.
  rewrite labels_eqb_neq by assumption; reflexivity.
Qed.

Lemma get_child_In m k (c : C) : get_child k m = Some c -> In (k, c) m.
Proof.
  induction m as [|[k0 c0] m IH]; simpl; [discriminate|].
  destruct (labels_eqb k k0) eqn:E.
  - apply labels_eqb_eq in E; subst k0. intros [= ->]; auto.
  - auto.
Qed.

(** A property of every child survives [labels] and an update that
    preserves it. *)
Lemma Forall_update_child (P : C -> Prop) m k f :
  (forall c, P c -> P (f c)) ->
  Forall (fun kc => P (snd kc)) m ->
  Forall (fun kc => P (snd kc)) (update_child k f m).
Proof.
  intros Hf; induction 1 as [|[k0 c0] m H0 Hm IH]; simpl; [constructor|].
  destruct (labels_eqb k k0); constructor; simpl in *; auto.
Qed.

Lemma Forall_touch (P : C -> Prop) (fresh : C) m k f :
  P fresh -> (forall c, P c -> P (f c)) ->
  Forall (fun kc => P (snd kc)) m ->
  Forall (fun kc => P (snd kc)) (touch fresh f k m).
Proof.
  intros Hfresh Hf Hm. unfold touch. apply Forall_update_child; [assumption|].
  destruct (get_child k m); [assumption|].
  apply Forall_app; split; [assumption|]. constructor; [assumption|constructor].
Qed.

Lemma get_child_Forall (P : C -> Prop) m k (c : C) :
  Forall (fun kc => P (snd kc)) m -> get_child k m = Some c -> P c.
Proof.
  intros Hm H. apply get_child_In in H.
  rewrite Forall_forall in Hm. apply (Hm _ H).
Qed.

End Children_lemmas.

(* ------------------------------------------------------------------------- *)
(** ** What the middleware does to the world *)

Lemma prometheus_middleware_returns call_next request w response w1 :
  call_next request w = (Ok response, w1) ->
  prometheus_middleware call_next request w =
  (Ok response,
   observe_request (request_labels request response) (now w1 - now w) w1).
Proof.
  intros H. unfold prometheus_middleware, bind, time_time.
  rewrite H. reflexivity.
Qed.

Lemma prometheus_middleware_raises call_next request w e w1 :
  call_next request w = (Raise e, w1) ->
  prometheus_middleware call_next request w = (Raise e, w1).
Proof.
  intros H. unfold prometheus_middleware, bind, time_time.
  rewrite H. reflexivity.
Qed.

Lemma prometheus_middleware_exits call_next request w code w1 :
  call_next request w = (Exit code, w1) ->
  prometheus_middleware call_next request w = (Exit code, w1).
Proof.
  intros H. unfold prometheus_middleware, bind, time_time.
  rewrite H. reflexivity.
Qed.

Lemma prometheus_middleware_after_handler call_next request w :
  prometheus_middleware call_next request w =
  after_handler request (now w) (call_next request w).
Proof.
  destruct (call_next request w) as [[response|e|code] w1] eqn:H; simpl.
  - apply prometheus_middleware_returns, H.
  - apply prometheus_middleware_raises, H.
  - apply prometheus_middleware_exits, H.
Qed.

(** Readings after [observe_request]. *)
Lemma counter_value_observe_same lv d w :
  counter_value (registry (observe_request lv d w)) lv ==
  counter_value (registry w) lv + 1.
Proof.
  unfold counter_value; simpl. rewrite get_child_touch_same.
  destruct (get_child lv (http_request_counter (registry w))); simpl; lra.
Qed.

Lemma counter_value_observe_other lv lv' d w :
  lv' <> lv ->
  counter_value (registry (observe_request lv d w)) lv' =
  counter_value (registry w) lv'.
Proof.
  intros N. unfold counter_value; simpl.
  rewrite get_child_touch_other by assumption. reflexivity.
Qed.

Lemma summary_count_observe_same lv d w :
  summary_count_of (registry (observe_request lv d w)) lv ==
  summary_count_of (registry w) lv + 1.
Proof.
  unfold summary_count_of; simpl. rewrite get_child_touch_same.
  destruct (get_child lv (request_duration_summary (registry w))); simpl; lra.
Qed.

Lemma summary_count_observe_other lv lv' d w :
  lv' <> lv ->
  summary_count_of (registry (observe_request lv d w)) lv' =
  summary_count_of (registry w) lv'.
Proof.
  intros N. unfold summary_count_of; simpl.
  rewrite get_child_touch_other by assumption. reflexivity.
Qed.

(* ------------------------------------------------------------------------- *)
(** ** Histogram buckets *)

Lemma bound_leb_refl b : bound_leb b b = true.
Proof. destruct b; simpl; [apply Qle_bool_iff; lra | reflexivity]. Qed.

Lemma bound_leb_trans a b c :
  bound_leb a b = true -> bound_leb b c = true -> bound_leb a c = true.
Proof.
  destruct a, b, c; simpl; try congruence; auto.
  rewrite !Qle_bool_iff; intros; lra.
Qed.

Lemma bounds_sorted_tail b bs : bounds_sorted (b :: bs) = true -> bounds_sorted bs = true.
Proof.
  destruct bs as [|b' bs]; [reflexivity|].
  simpl. intros H; apply andb_true_iff in H; tauto.
Qed.

Lemma bounds_sorted_head b bs b' :
  bounds_sorted (b :: bs) = true -> In b' bs -> bound_leb b b' = true.
Proof.
  revert b; induction bs as [|c bs IH]; intros b Hs Hin; [destruct Hin|].
  destruct Hin as [<-|Hin].
  - simpl in Hs; apply andb_true_iff in Hs; tauto.
  - assert (Hbc : bound_leb b c = true)
      by (simpl in Hs; apply andb_true_iff in Hs; tauto).
    apply bound_leb_trans with c; [exact Hbc|].
    apply IH; [eapply bounds_sorted_tail; exact Hs | exact Hin].
Qed.

Lemma first_bucket_smallest bounds amount i b :
  bounds_sorted bounds = true ->
  first_bucket bounds amount = Some i ->
  nth_error bounds i = Some b ->
  smallest_bound_ge bounds amount b.
Proof.
  revert i; induction bounds as [|b0 rest IH]; intros i Hs Hf Hn; [discriminate|].
  simpl in Hf. destruct (le_bound amount b0) eqn:E.
  - injection Hf as <-. simpl in Hn; injection Hn as <-.
    split; [left; reflexivity|]. split; [exact E|].
    intros b' [<-|Hin] _; [apply bound_leb_refl|].
    eapply bounds_sorted_head; eauto.
  - destruct (first_bucket rest amount) as [i'|] eqn:F; [|discriminate].
    injection Hf as <-. simpl in Hn.
    destruct (IH i' (bounds_sorted_tail _ _ Hs) eq_refl Hn) as (H1 & H2 & H3).
    split; [right; exact H1|]. split; [exact H2|].
    intros b' [<-|Hin] Hb'; [congruence | auto].
Qed.

Lemma first_bucket_INF bounds amount :
  In INF bounds -> exists i, first_bucket bounds amount = Some i /\
                             (i < List.length bounds)%nat.
Proof.
  induction bounds as [|b rest IH]; intros Hin; [destruct Hin|].
  simpl. destruct (le_bound amount b) eqn:E.
  - exists O; split; [reflexivity | simpl; lia].
  - destruct Hin as [->|Hin]; [discriminate|].
    destruct (IH Hin) as (i & -> & Hi). exists (S i); split; [reflexivity | simpl; lia].
Qed.

Lemma bucket_inc_length bounds bs amount :
  List.length (bucket_inc bounds bs amount) = List.length bs.
Proof.
  revert bs; induction bounds as [|b rest IH]; intros [|c bs]; simpl; auto.
  destruct (le_bound amount b); simpl; auto.
Qed.

Lemma bucket_inc_nonneg bounds bs amount :
  Forall (Qle 0) bs -> Forall (Qle 0) (bucket_inc bounds bs amount).
Proof.
  revert bs; induction bounds as [|b rest IH]; intros [|c bs] H; simpl; auto.
  inversion H as [|? ? Hc Hbs]; subst.
  destruct (le_bound amount b); constructor; auto. lra.
Qed.

(** The loop increments the bucket at [first_bucket] by one and nothing
    else. *)
Lemma bucket_inc_nth bounds bs amount i :
  List.length bs = List.length bounds ->
  first_bucket bounds amount = Some i ->
  forall j, nth j (bucket_inc bounds bs amount) 0 =
            if Nat.eqb j i then nth j bs 0 + 1 else nth j bs 0.
Proof.
  revert bs i; induction bounds as [|b rest IH]; intros [|c bs] i Hl Hf j;
    try discriminate.
  simpl in *. destruct (le_bound amount b).
  - injection Hf as <-. destruct j; reflexivity.
  - destruct (first_bucket rest amount) as [i'|] eqn:F; [|discriminate].
    injection Hf as <-. destruct j; simpl; [reflexivity|].
    apply IH; [lia | reflexivity].
Qed.

Lemma fold_left_Qplus_shift (l : list Q) (a : Q) :
  fold_left Qplus l a == a + fold_left Qplus l 0.
Proof.
  revert a; induction l as [|x l IH]; intros a; simpl; [lra|].
  rewrite IH, (IH (0 + x)). lra.
Qed.

Lemma bucket_inc_sum bounds bs amount i :
  List.length bs = List.length bounds ->
  first_bucket bounds amount = Some i ->
  fold_left Qplus (bucket_inc bounds bs amount) 0 == fold_left Qplus bs 0 + 1.
Proof.
  revert bs i; induction bounds as [|b rest IH]; intros [|c bs] i Hl Hf;
    try discriminate.
  simpl in *. destruct (le_bound amount b).
  - simpl. rewrite fold_left_Qplus_shift, (fold_left_Qplus_shift bs (0 + c)). lra.
  - destruct (first_bucket rest amount) as [i'|] eqn:F; [|discriminate].
    simpl. rewrite fold_left_Qplus_shift, (fold_left_Qplus_shift bs (0 + c)).
    rewrite (IH bs i') by (auto; lia). lra.
Qed.

Lemma cumulative_length acc bs : List.length (cumulative acc bs) = List.length bs.
Proof. revert acc; induction bs; intros; simpl; auto. Qed.

Lemma cumulative_ge acc bs :
  Forall (Qle 0) bs -> Forall (Qle acc) (cumulative acc bs).
Proof.
  revert acc; induction bs as [|c bs IH]; intros acc H; simpl; [constructor|].
  inversion H as [|? ? Hc Hbs]; subst. constructor; [lra|].
  eapply Forall_impl; [|apply IH, Hbs]. simpl; intros; lra.
Qed.

Lemma cumulative_sorted acc bs :
  Forall (Qle 0) bs -> StronglySorted Qle (cumulative acc bs).
Proof.
  revert acc; induction bs as [|c bs IH]; intros acc H; simpl; [constructor|].
  inversion H as [|? ? Hc Hbs]; subst.
  constructor; [apply IH, Hbs | apply cumulative_ge, Hbs].
Qed.

Lemma last_cumulative acc bs d :
  bs <> [] -> last (cumulative acc bs) d = fold_left Qplus bs acc.
Proof.
  revert acc; induction bs as [|c bs IH]; intros acc H; [contradiction|].
  destruct bs as [|c' bs]; [reflexivity|].
  change (last (cumulative (acc + c) (c' :: bs)) d =
          fold_left Qplus (c' :: bs) (acc + c)).
  apply IH; discriminate.
Qed.

Arguments upper_bounds : simpl never.

Lemma upper_bounds_sorted : bounds_sorted upper_bounds = true.
Proof. reflexivity. Qed.

Lemma upper_bounds_INF : In INF upper_bounds.
Proof. rewrite upper_bounds_eq; simpl; tauto. Qed.

Lemma wf_new_histogram t : wf_histogram (new_histogram t).
Proof.
  split; simpl; [reflexivity|].
  repeat constructor; lra.
Qed.

Lemma wf_histogram_observe amount h :
  wf_histogram h -> wf_histogram (histogram_observe upper_bounds amount h).
Proof.
  intros [Hl Hn]; split; cbn [histogram_observe h_buckets].
  - rewrite bucket_inc_length; exact Hl.
  - apply bucket_inc_nonneg, Hn.
Qed.

Lemma histogram_count_observe amount h :
  wf_histogram h ->
  histogram_count (histogram_observe upper_bounds amount h) == histogram_count h + 1.
Proof.
  intros [Hl _]. unfold histogram_count; cbn [histogram_observe h_buckets].
  destruct (first_bucket_INF upper_bounds amount upper_bounds_INF) as (i & Hi & _).
  eapply bucket_inc_sum; eauto.
Qed.

(* ------------------------------------------------------------------------- *)
(** ** Sequences of observations on the metrics *)

Lemma counter_observe_ok li amount w :
  0 <= amount ->
  counter_observe li amount w =
  (Ok tt,
   set_registry
     (set_counter
        (touch (new_counter (now w)) (counter_add amount) (labels_of li)
           (http_request_counter (registry w)))
        (registry w)) w).
Proof.
  intros H. apply Qle_bool_iff in H.
  destruct li as [[m p] s].
  unfold counter_observe, bind, Counter_labels, Counter_inc, labels; simpl.
  rewrite H. reflexivity.
Qed.

Lemma Qsum_cons a l : Qsum (a :: l) == a + Qsum l.
Proof.
  unfold Qsum; simpl. rewrite fold_left_Qplus_shift. lra.
Qed.

Lemma counter_observations_cons o os w :
  0 <= snd o ->
  counter_observations (o :: os) w =
  counter_observations os
    (set_registry
       (set_counter
          (touch (new_counter (now w)) (counter_add (snd o)) (labels_of (fst o))
             (http_request_counter (registry w)))
          (registry w)) w).
Proof.
  intros H. cbn [counter_observations]. unfold bind.
  rewrite (counter_observe_ok _ _ _ H). reflexivity.
Qed.

Lemma counter_observations_sum os li w :
  Forall (fun o => 0 <= snd o) os ->
  fst (counter_observations os w) = Ok tt /\
  counter_value (registry (snd (counter_observations os w))) (labels_of li) ==
  counter_value (registry w) (labels_of li) + Qsum (amounts_for li os).
Proof.
  intros H; revert w; induction H as [|o os Ho Hos IH]; intros w.
  - simpl. split; [reflexivity | unfold Qsum; simpl; lra].
  - rewrite (counter_observations_cons _ _ _ Ho).
    destruct (IH (set_registry
                    (set_counter
                       (touch (new_counter (now w)) (counter_add (snd o))
                          (labels_of (fst o)) (http_request_counter (registry w)))
                       (registry w)) w)) as [IH1 IH2].
    split; [exact IH1|]. etransitivity; [exact IH2|]. clear IH1 IH2 IH.
    unfold amounts_for; cbn [filter]. unfold same_instance at 2.
    unfold counter_value at 1; cbn [registry set_registry set_counter http_request_counter].
    destruct (labels_eqb (labels_of (fst o)) (labels_of li)) eqn:E.
    + apply labels_eqb_eq in E. rewrite E, get_child_touch_same.
      cbn [map]. rewrite Qsum_cons. unfold counter_value.
      destruct (get_child (labels_of li) (http_request_counter (registry w)));
        simpl; lra.
    + rewrite get_child_touch_other.
      * unfold counter_value. lra.
      * intros F. rewrite F, labels_eqb_refl in E. discriminate.
Qed.

Lemma histogram_observations_cons o os w :
  histogram_observations (o :: os) w =
  histogram_observations os
    (set_registry
       (set_histogram
          (touch (new_histogram (now w)) (histogram_observe upper_bounds (snd o))
             (labels_of (fst o)) (request_duration_histogram (registry w)))
          (registry w)) w).
Proof.
  destruct o as [[[m p] s] a]. reflexivity.
Qed.

Lemma histogram_observations_child os li w :
  fst (histogram_observations os w) = Ok tt /\
  histogram_child (snd (histogram_observations os w)) li =
  observe_all (amounts_for li os) (histogram_child w li).
Proof.
  revert w; induction os as [|o os IH]; intros w.
  - split; reflexivity.
  - rewrite histogram_observations_cons.
    match goal with |- context [histogram_observations os ?w1] =>
      destruct (IH w1) as [IH1 IH2]; split; [exact IH1|]; rewrite IH2
    end.
    clear IH IH1 IH2. unfold amounts_for; cbn [filter]. unfold same_instance at 2.
    unfold histogram_child at 1;
      cbn [registry set_registry set_histogram request_duration_histogram now].
    destruct (labels_eqb (labels_of (fst o)) (labels_of li)) eqn:E.
    + apply labels_eqb_eq in E. rewrite E, get_child_touch_same. reflexivity.
    + rewrite get_child_touch_other; [reflexivity|].
      intros F. rewrite F, labels_eqb_refl in E. discriminate.
Qed.

Lemma amounts_for_snoc li os a :
  amounts_for li (os ++ [(li, a)]) = amounts_for li os ++ [a].
Proof.
  unfold amounts_for. rewrite filter_app, map_app. cbn [filter].
  unfold same_instance at 2. cbn [fst]. rewrite labels_eqb_refl. reflexivity.
Qed.

Lemma observe_all_snoc amounts a h :
  observe_all (amounts ++ [a]) h =
  histogram_observe upper_bounds a (observe_all amounts h).
Proof. unfold observe_all. rewrite fold_left_app. reflexivity. Qed.

Lemma wf_observe_all amounts h : wf_histogram h -> wf_histogram (observe_all amounts h).
Proof.
  revert h; induction amounts as [|a l IH]; intros h H; [exact H|].
  apply IH, wf_histogram_observe, H.
Qed.

Lemma histogram_count_observe_all amounts h :
  wf_histogram h ->
  histogram_count (observe_all amounts h) ==
  histogram_count h + inject_Z (Z.of_nat (List.length amounts)).
Proof.
  revert h; induction amounts as [|a l IH]; intros h H.
  - change (histogram_count h == histogram_count h + 0). lra.
  - change (observe_all (a :: l) h)
      with (observe_all l (histogram_observe upper_bounds a h)).
    rewrite IH by (apply wf_histogram_observe, H).
    rewrite histogram_count_observe by exact H.
    cbn [List.length]. rewrite Nat2Z.inj_succ. unfold Z.succ.
    rewrite inject_Z_plus. change (inject_Z 1) with 1. lra.
Qed.

Lemma histogram_count_last h :
  wf_histogram h -> last (cumulative 0 (h_buckets h)) 0 = histogram_count h.
Proof.
  intros [Hl _]. apply last_cumulative.
  intros E. rewrite E in Hl. discriminate.
Qed.

(* ------------------------------------------------------------------------- *)
(** ** The exposition document *)

Lemma serialize_metrics_total (g : MetricFamily -> list string) families :
  serialize_metrics (fun f => inr (g f)) families = inr (flat_map g families).
Proof.
  induction families as [|f rest IH]; simpl; [reflexivity|].
  rewrite IH. reflexivity.
Qed.

Lemma generate_latest_total float_repr platform r :
  generate_latest float_repr platform r =
  inr (join_lines (exposition_lines float_repr platform r)).
Proof.
  unfold generate_latest, generate_latest_with, exposition_lines.
  rewrite serialize_metrics_total. reflexivity.
Qed.

Lemma generate_latest_with_total float_repr platform r :
  generate_latest_with (fun f => inr (metric_lines float_repr f)) platform r =
  inr (join_lines (exposition_lines float_repr platform r)).
Proof. apply generate_latest_total. Qed.

(** The first failing family decides the outcome of the loop. *)
Lemma serialize_metrics_fails serialize families :
  (exists f, In f families /\ exists e, serialize f = inl e) ->
  exists e, serialize_metrics serialize families = inl e.
Proof.
  induction families as [|f rest IH]; intros (f0 & Hin & e & He); [destruct Hin|].
  simpl. destruct (serialize f) as [e'|ls] eqn:E; [eauto|].
  destruct Hin as [->|Hin]; [congruence|].
  destruct IH as [e' ->]; eauto.
Qed.

Lemma serialize_metrics_succeeds serialize families :
  (forall f, In f families -> exists ls, serialize f = inr ls) ->
  exists ls, serialize_metrics serialize families = inr ls /\
             forall f ls', In f families -> serialize f = inr ls' ->
                           forall l, In l ls' -> In l ls.
Proof.
  induction families as [|f rest IH]; intros H.
  - exists []; split; [reflexivity | intros ? ? []].
  - destruct (H f (or_introl eq_refl)) as [ls0 E0].
    destruct IH as (ls & E & Hall); [intros; apply H; right; assumption|].
    exists (ls0 ++ ls); split; [simpl; rewrite E0, E; reflexivity|].
    intros f' ls' [<-|Hin] E' l Hl; apply in_or_app.
    + left. congruence.
    + right. eapply Hall; eauto.
Qed.

(** Every child of the request counter has its sample line in the
    document. *)
Lemma counter_line_in_exposition float_repr platform r lv c :
  get_child lv (http_request_counter r) = Some c ->
  In (sample_line float_repr "http_requests_total"
        (combine ["method"; "path"; "status_code"] lv) (c_value c))
     (exposition_lines float_repr platform r).
Proof.
  intros H. apply get_child_In in H.
  unfold exposition_lines, collect. rewrite flat_map_app.
  apply in_or_app; right. cbn [flat_map metric_lines].
  apply in_or_app; left. unfold counter_lines.
  right; right. apply in_or_app; left.
  apply in_map_iff. exists (lv, c); split; [reflexivity | exact H].
Qed.

(* ------------------------------------------------------------------------- *)
(** ** The routes leave the request metrics alone *)

Lemma metrics_frame content_type gl w :
  registry (snd (metrics content_type gl w)) = registry w.
Proof. unfold metrics. destruct (gl (registry w)); reflexivity. Qed.

Lemma app_with_frame serialize env request w :
  same_request_metrics (registry w) (registry (snd (app_with serialize env request w))).
Proof.
  unfold app_with, bind, sleep.
  destruct (negb (method request =? "GET")); [repeat split|].
  repeat match goal with
         | |- context [if String.eqb ?a ?b then _ else _] =>
             destruct (String.eqb a b)
         end;
    try (repeat split; reflexivity).
  - unfold same_request_metrics. rewrite metrics_frame. repeat split.
  - unfold call_service_b. destruct (service_b env); repeat split.
Qed.

Lemma app_frame float_repr env request w :
  same_request_metrics (registry w) (registry (snd (app float_repr env request w))).
Proof. apply app_with_frame. Qed.

Lemma app_with_now serialize env request w :
  now (snd (app_with serialize env request w)) ==
  now w + handler_seconds env +
  (if (method request =? "GET") && (scope_path request =? "/example")
   then task_seconds env else 0).
Proof.
  unfold app_with, bind, sleep.
  destruct (method request =? "GET"); simpl; [|lra].
  destruct (scope_path request =? "/") eqn:E0.
  { apply String.eqb_eq in E0; rewrite E0; simpl; lra. }
  destruct (scope_path request =? "/healthy") eqn:E1.
  { apply String.eqb_eq in E1; rewrite E1; simpl; lra. }
  destruct (scope_path request =? "/serverError") eqn:E2.
  { apply String.eqb_eq in E2; rewrite E2; simpl; lra. }
  destruct (scope_path request =? "/notFound") eqn:E3.
  { apply String.eqb_eq in E3; rewrite E3; simpl; lra. }
  destruct (scope_path request =? "/logs") eqn:E4.
  { apply String.eqb_eq in E4; rewrite E4; simpl; lra. }
  destruct (scope_path request =? "/crash") eqn:E5.
  { apply String.eqb_eq in E5; rewrite E5; simpl; lra. }
  destruct (scope_path request =? "/example") eqn:E6.
  { simpl; lra. }
  destruct (scope_path request =? "/metrics") eqn:E7.
  { unfold metrics. destruct (generate_latest_with _ _ _); simpl; lra. }
  destruct (scope_path request =? "/call-service-b") eqn:E8.
  { unfold call_service_b. destruct (service_b env); simpl; lra. }
  simpl; lra.
Qed.

Lemma app_now float_repr env request w :
  now (snd (app float_repr env request w)) ==
  now w + handler_seconds env +
  (if (method request =? "GET") && (scope_path request =? "/example")
   then task_seconds env else 0).
Proof. apply app_with_now. Qed.

(* ------------------------------------------------------------------------- *)
(** ** Invariants of the running service *)

Lemma histogram_count_new t : histogram_count (new_histogram t) == 0.
Proof. vm_compute. reflexivity. Qed.

Lemma same_request_metrics_wf r r' :
  same_request_metrics r r' -> wf_registry r -> wf_registry r'.
Proof. intros (_ & H & _). unfold wf_registry. rewrite H. auto. Qed.

Lemma same_request_metrics_counts r r' :
  same_request_metrics r r' -> counts_agree r -> counts_agree r'.
Proof.
  intros (H1 & H2 & H3) H lv.
  unfold counter_value, histogram_count_of, summary_count_of.
  rewrite H1, H2, H3. apply H.
Qed.

Lemma same_request_metrics_counter r r' lv :
  same_request_metrics r r' -> counter_value r' lv = counter_value r lv.
Proof. intros (H1 & _). unfold counter_value. rewrite H1. reflexivity. Qed.

Lemma wf_observe_request lv d w :
  wf_registry (registry w) -> wf_registry (registry (observe_request lv d w)).
Proof.
  unfold wf_registry; simpl. intros H.
  apply (Forall_touch wf_histogram); auto using wf_new_histogram, wf_histogram_observe.
Qed.

Lemma histogram_count_observe_same lv d w :
  wf_registry (registry w) ->
  histogram_count_of (registry (observe_request lv d w)) lv ==
  histogram_count_of (registry w) lv + 1.
Proof.
  intros Hwf. unfold histogram_count_of; simpl. rewrite get_child_touch_same.
  destruct (get_child lv (request_duration_histogram (registry w))) as [h|] eqn:E;
    cbn [child_or].
  - apply histogram_count_observe.
    apply (get_child_Forall wf_histogram _ _ _ Hwf E).
  - rewrite histogram_count_observe by apply wf_new_histogram.
    rewrite histogram_count_new. lra.
Qed.

Lemma histogram_count_observe_other lv lv' d w :
  lv' <> lv ->
  histogram_count_of (registry (observe_request lv d w)) lv' =
  histogram_count_of (registry w) lv'.
Proof.
  intros N. unfold histogram_count_of; simpl.
  rewrite get_child_touch_other by assumption. reflexivity.
Qed.

Lemma labels_eq_dec (a b : LabelValues) : a = b \/ a <> b.
Proof.
  destruct (labels_eqb a b) eqn:E.
  - left; apply labels_eqb_eq, E.
  - right; intros ->. rewrite labels_eqb_refl in E. discriminate.
Qed.

Lemma Inv_observe_request lv d w : Inv w -> Inv (observe_request lv d w).
Proof.
  intros [Hwf Hc]. split; [apply wf_observe_request, Hwf|].
  intros lv'. destruct (labels_eq_dec lv' lv) as [->|N].
  - rewrite counter_value_observe_same, summary_count_observe_same,
      histogram_count_observe_same by exact Hwf.
    destruct (Hc lv) as [H1 H2]. rewrite <- H1, <- H2. split; reflexivity.
  - rewrite counter_value_observe_other, summary_count_observe_other,
      histogram_count_observe_other by exact N.
    apply Hc.
Qed.

Lemma Inv_initial t0 : Inv (initial_world t0).
Proof.
  split; [constructor|]. intros lv; split; reflexivity.
Qed.

Section Running.

Variable float_repr : Q -> string.

Lemma serve_after_handler env request w :
  serve float_repr env request w =
  after_handler request (now w) (app float_repr env request w).
Proof. apply prometheus_middleware_after_handler. Qed.

Lemma Inv_app env request w : Inv w -> Inv (snd (app float_repr env request w)).
Proof.
  intros [Hwf Hc]. pose proof (app_frame float_repr env request w) as F.
  split; [eapply same_request_metrics_wf | eapply same_request_metrics_counts]; eauto.
Qed.

Lemma Inv_serve env request w : Inv w -> Inv (snd (serve float_repr env request w)).
Proof.
  intros H. rewrite serve_after_handler.
  pose proof (Inv_app env request w H) as H'.
  destruct (app float_repr env request w) as [[response|e|code] w1]; simpl in *; auto.
  apply Inv_observe_request, H'.
Qed.

Lemma Inv_run requests w : Inv w -> Inv (snd (run float_repr requests w)).
Proof.
  revert w; induction requests as [|[env request] rest IH]; intros w H; [exact H|].
  simpl. pose proof (Inv_serve env request w H) as H'.
  destruct (serve float_repr env request w) as [[response|e|code] w1]; simpl in *.
  - specialize (IH w1 H'). destruct (run float_repr rest w1); exact IH.
  - specialize (IH w1 H'). destruct (run float_repr rest w1); exact IH.
  - exact H'.
Qed.

End Running.

(* ------------------------------------------------------------------------- *)
(** ** Requests that complete on one label instance *)

Section Counting.

Variable float_repr : Q -> string.

Lemma serve_counts env request w response w' :
  serve float_repr env request w = (Ok response, w') ->
  counter_value (registry w') (request_labels request response) ==
  counter_value (registry w) (request_labels request response) + 1.
Proof.
  rewrite serve_after_handler.
  pose proof (app_frame float_repr env request w) as F.
  destruct (app float_repr env request w) as [[r|e|code] w1]; simpl in *;
    try discriminate.
  intros [= -> <-]. rewrite counter_value_observe_same.
  rewrite (same_request_metrics_counter _ _ _ F). reflexivity.
Qed.

Lemma run_counts requests w m p s :
  Forall (request_on m p) requests ->
  Forall (completed_with s) (fst (run float_repr requests w)) ->
  counter_value (registry (snd (run float_repr requests w))) [m; p; str_int s] ==
  counter_value (registry w) [m; p; str_int s] +
  inject_Z (Z.of_nat (List.length requests)).
Proof.
  intros Hreq; revert w; induction Hreq as [|[env request] rest [Hm Hp] Hrest IH];
    intros w Hout.
  - cbn [run snd List.length]. change (inject_Z (Z.of_nat 0)) with 0. lra.
  - simpl in Hm, Hp. cbn [run] in *.
    destruct (serve float_repr env request w) as [[response|e|code] w1] eqn:E.
    + destruct (run float_repr rest w1) as [outcomes w2] eqn:R.
      cbn [fst snd] in *. inversion Hout as [|? ? (r & Hr & Hs) Hout']; subst.
      injection Hr as <-.
      specialize (IH w1). rewrite R in IH. cbn [fst snd] in IH.
      rewrite (IH Hout').
      pose proof (serve_counts _ _ _ _ _ E) as C. unfold request_labels in C.
      rewrite C. cbn [List.length]. rewrite Nat2Z.inj_succ. unfold Z.succ.
      rewrite inject_Z_plus. change (inject_Z 1) with 1. lra.
    + destruct (run float_repr rest w1) as [outcomes w2].
      cbn [fst] in Hout. inversion Hout as [|? ? (r & Hr & _) _]. discriminate.
    + cbn [fst] in Hout. inversion Hout as [|? ? (r & Hr & _) _]. discriminate.
Qed.

End Counting.

(* ------------------------------------------------------------------------- *)
(** ** Scenarios *)

Lemma not_In_by_eqb (x : string) (l : list string) :
  existsb (String.eqb x) l = false -> ~ In x l.
Proof.
  intros H Hin. assert (E : existsb (String.eqb x) l = true).
  { apply existsb_exists. exists x. split; [exact Hin | apply String.eqb_refl]. }
  congruence.
Qed.

Lemma In_by_eqb (x : string) (l : list string) :
  existsb (String.eqb x) l = true -> In x l.
Proof.
  intros H. apply existsb_exists in H. destruct H as (y & Hin & E).
  apply String.eqb_eq in E. subst y. exact Hin.
Qed.

Lemma serve_healthy float_repr env w :
  serve float_repr env (GET "/healthy") w =
  (Ok healthy_response,
   observe_request ["GET"; "/healthy"; "200"] (now w + handler_seconds env - now w)
     {| registry := registry w; now := now w + handler_seconds env; log := log w |}).
Proof. reflexivity. Qed.

Lemma serve_not_found float_repr env w :
  serve float_repr env (GET "/notFound") w =
  (Ok not_found_response,
   observe_request ["GET"; "/notFound"; "404"] (now w + handler_seconds env - now w)
     {| registry := registry w; now := now w + handler_seconds env; log := log w |}).
Proof. reflexivity. Qed.

Lemma serve_metrics float_repr env w :
  serve float_repr env (GET "/metrics") w =
  (Ok (metrics_response (CONTENT_TYPE_LATEST env)
         (join_lines (exposition_lines float_repr (platform env) (registry w)))),
   observe_request ["GET"; "/metrics"; "200"] (now w + handler_seconds env - now w)
     {| registry := registry w; now := now w + handler_seconds env; log := log w |}).
Proof.
  rewrite serve_after_handler.
  unfold app, app_with, bind, sleep.
  cbn [GET method scope_path String.eqb Ascii.eqb Bool.eqb negb].
  unfold metrics. cbn [registry]. rewrite generate_latest_with_total. reflexivity.
Qed.

(* ========================================================================= *)
(** * The claims *)

(** C1 (as stated, it fails): after three [GET /healthy] requests the
    exposition has no line
    [http_requests_total{method="GET",path="/healthy",status_code="200"} 3];
    the counter is a float and its sample line ends in [3.0]. *)
Lemma healthy_line_is_not_3 :
  let served := run no_repr (three_healthy quiet_env quiet_env quiet_env) (initial_world 0) in
  exists body,
    fst (serve no_repr quiet_env (GET "/metrics") (snd served)) =
      Ok (metrics_response (CONTENT_TYPE_LATEST quiet_env) body) /\
    body = join_lines (exposition_lines no_repr [] (registry (snd served))) /\
    ~ In (requests_total_line "/healthy" "200" "3")
         (exposition_lines no_repr [] (registry (snd served))) /\
    ~ In (requests_total_line "/healthy" "200" "3") (splitlines body) /\
    In (requests_total_line "/healthy" "200" "3.0") (splitlines body).
Proof.
  eexists. split; [rewrite serve_metrics; reflexivity|].
  split; [reflexivity|].
  split; [apply not_In_by_eqb; vm_compute; reflexivity|].
  split; [apply not_In_by_eqb; vm_compute; reflexivity|].
  apply In_by_eqb; vm_compute; reflexivity.
Qed.

(** C1 (amended): for every K, K sequential completed requests with the same
    (method, path, status_code) triple leave [http_requests_total] at K for
    that label instance, and a scrape shows the sample line of that instance
    with a value equal to K; after three [GET /healthy] requests, each
    answered with status 200, the exposition contains the line
    [http_requests_total{method="GET",path="/healthy",status_code="200"} 3.0]. *)
Theorem requests_total_counts_completed_requests (float_repr : Q -> string) :
  (forall requests t0 m p s,
      Forall (request_on m p) requests ->
      Forall (completed_with s) (fst (run float_repr requests (initial_world t0))) ->
      let w := snd (run float_repr requests (initial_world t0)) in
      let K := inject_Z (Z.of_nat (List.length requests)) in
      counter_value (registry w) [m; p; str_int s] == K /\
      forall env,
        fst (serve float_repr env (GET "/metrics") w) =
          Ok (metrics_response (CONTENT_TYPE_LATEST env)
                (join_lines (exposition_lines float_repr (platform env) (registry w)))) /\
        (requests <> [] ->
         exists v, v == K /\
           In (sample_line float_repr "http_requests_total"
                 [("method", m); ("path", p); ("status_code", str_int s)] v)
              (exposition_lines float_repr (platform env) (registry w)))) /\
  (forall e1 e2 e3 e4 t0,
      let served := run float_repr (three_healthy e1 e2 e3) (initial_world t0) in
      fst served = [Ok healthy_response; Ok healthy_response; Ok healthy_response] /\
      status_code healthy_response = 200%Z /\
      fst (serve float_repr e4 (GET "/metrics") (snd served)) =
        Ok (metrics_response (CONTENT_TYPE_LATEST e4)
              (join_lines (exposition_lines float_repr (platform e4) (registry (snd served))))) /\
      In (requests_total_line "/healthy" "200" "3.0")
         (exposition_lines float_repr (platform e4) (registry (snd served)))).
Proof.
  split.
  - intros requests t0 m p s Hreq Hout w K.
    assert (HK : counter_value (registry w) [m; p; str_int s] == K).
    { subst w K. rewrite (run_counts float_repr _ _ _ _ _ Hreq Hout).
      change (counter_value (registry (initial_world t0)) [m; p; str_int s]) with 0.
      lra. }
    split; [exact HK|]. intros env. split; [rewrite serve_metrics; reflexivity|].
    intros Hne. unfold counter_value in HK.
    destruct (get_child [m; p; str_int s] (http_request_counter (registry w)))
      as [c|] eqn:E.
    + exists (c_value c). split; [exact HK|].
      apply (counter_line_in_exposition float_repr (platform env) _ _ _ E).
    + exfalso. subst K. destruct requests as [|x xs]; [contradiction|].
      cbn [List.length] in HK. rewrite Nat2Z.inj_succ in HK. unfold Z.succ in HK.
      rewrite inject_Z_plus in HK. change (inject_Z 1) with 1 in HK.
      assert (0 <= inject_Z (Z.of_nat (List.length xs))).
      { change 0 with (inject_Z 0). rewrite <- Zle_Qle. lia. }
      lra.
  - intros e1 e2 e3 e4 t0 served.
    split; [reflexivity|]. split; [reflexivity|].
    split; [rewrite serve_metrics; reflexivity|].
    assert (E : get_child ["GET"; "/healthy"; "200"]
                  (http_request_counter (registry (snd served))) =
                Some {| c_value := 0 + 1 + 1 + 1;
                        c_created := t0 + handler_seconds e1 |}) by reflexivity.
    apply (counter_line_in_exposition float_repr (platform e4)) in E.
    exact E.
Qed.

(** A run the claim speaks of: three [GET /healthy] requests, counted as 3. *)
Lemma requests_total_counts_witness :
  counter_value
    (registry (snd (run no_repr (three_healthy quiet_env quiet_env quiet_env)
                      (initial_world 0))))
    ["GET"; "/healthy"; str_int 200] == inject_Z (Z.of_nat 3).
Proof.
  assert (H1 : Forall (request_on "GET" "/healthy")
                 (three_healthy quiet_env quiet_env quiet_env))
    by (unfold three_healthy; repeat constructor).
  assert (H2 : Forall (completed_with 200)
                 (fst (run no_repr (three_healthy quiet_env quiet_env quiet_env)
                         (initial_world 0)))).
  { assert (E : fst (run no_repr (three_healthy quiet_env quiet_env quiet_env)
                       (initial_world 0)) =
                [Ok healthy_response; Ok healthy_response; Ok healthy_response])
      by (vm_compute; reflexivity).
    rewrite E. repeat constructor; exists healthy_response; split; reflexivity. }
  exact (proj1 (proj1 (requests_total_counts_completed_requests no_repr)
                  (three_healthy quiet_env quiet_env quiet_env) 0 "GET" "/healthy"
                  200%Z H1 H2)).
Defined.

(** C2: whenever the handler returns a response, the middleware returns it
    and leaves the world of the handler changed by one set of observations
    and nothing else: with elapsed = now - start and the label instance
    (method, path, str(status_code)), the counter child has been incremented
    by 1 once, the histogram child and the summary child have each observed
    elapsed once, every other label instance of the three metrics and the
    gauge are as the handler left them. *)
Theorem middleware_records_one_observation
    (call_next : Request -> M Response) (request : Request) (w : World)
    (response : Response) (w1 : World) :
  call_next request w = (Ok response, w1) ->
  let lv := [method request; url_path request; str_int (status_code response)] in
  let elapsed := now w1 - now w in
  let r1 := registry w1 in
  let r2 := registry (snd (prometheus_middleware call_next request w)) in
  fst (prometheus_middleware call_next request w) = Ok response /\
  get_child lv (http_request_counter r2) =
    Some (counter_add 1
            (child_or (new_counter (now w1)) (get_child lv (http_request_counter r1)))) /\
  get_child lv (request_duration_histogram r2) =
    Some (histogram_observe upper_bounds elapsed
            (child_or (new_histogram (now w1))
               (get_child lv (request_duration_histogram r1)))) /\
  get_child lv (request_duration_summary r2) =
    Some (summary_observe elapsed
            (child_or (new_summary (now w1))
               (get_child lv (request_duration_summary r1)))) /\
  counter_value r2 lv == counter_value r1 lv + 1 /\
  summary_count_of r2 lv == summary_count_of r1 lv + 1 /\
  summary_sum_of r2 lv == summary_sum_of r1 lv + elapsed /\
  histogram_sum_of r2 lv == histogram_sum_of r1 lv + elapsed /\
  (forall lv', lv' <> lv ->
     get_child lv' (http_request_counter r2) = get_child lv' (http_request_counter r1) /\
     get_child lv' (request_duration_histogram r2) =
       get_child lv' (request_duration_histogram r1) /\
     get_child lv' (request_duration_summary r2) =
       get_child lv' (request_duration_summary r1)) /\
  gauge r2 = gauge r1.
Proof.
  intros H lv elapsed r1 r2.
  subst r2. rewrite (prometheus_middleware_returns _ _ _ _ _ H).
  fold lv elapsed. cbn [fst snd]. unfold request_labels. fold lv.
  split; [reflexivity|].
  split; [apply get_child_touch_same|].
  split; [apply get_child_touch_same|].
  split; [apply get_child_touch_same|].
  split; [apply counter_value_observe_same|].
  split; [apply summary_count_observe_same|].
  split.
  { unfold summary_sum_of; cbn [observe_request registry request_duration_summary].
    rewrite get_child_touch_same. subst r1.
    destruct (get_child lv (request_duration_summary (registry w1))); simpl; lra. }
  split.
  { unfold histogram_sum_of; cbn [observe_request registry request_duration_histogram].
    rewrite get_child_touch_same. subst r1.
    destruct (get_child lv (request_duration_histogram (registry w1))); simpl; lra. }
  split; [|reflexivity].
  intros lv' N. cbn [observe_request registry http_request_counter
                       request_duration_histogram request_duration_summary].
  rewrite !get_child_touch_other by exact N. repeat split.
Qed.

(** A completed request: [GET /healthy] on the fresh service. *)
Lemma middleware_records_one_observation_witness :
  fst (prometheus_middleware (app no_repr quiet_env) (GET "/healthy") (initial_world 0)) =
    Ok healthy_response /\
  counter_value
    (registry (snd (prometheus_middleware (app no_repr quiet_env) (GET "/healthy")
                      (initial_world 0))))
    ["GET"; "/healthy"; "200"] == 0 + 1.
Proof.
  pose proof (middleware_records_one_observation (app no_repr quiet_env)
                (GET "/healthy") (initial_world 0) healthy_response
                {| registry := empty_registry; now := 0 + 0; log := [] |} eq_refl)
    as H.
  cbv zeta in H. split; [exact (proj1 H)|].
  exact (proj1 (proj2 (proj2 (proj2 (proj2 H))))).
Defined.

(** C3: for every sequence of [inc] calls with non-negative amounts on the
    request counter, issued against any label instances from the fresh
    registry, no call raises and the final value of a label instance equals
    the sum of the amounts recorded against that instance. *)
Theorem counter_value_is_sum_of_recorded_values
    (os : list (LabelInstance * Q)) (li : LabelInstance) (t0 : Q) :
  Forall (fun o => 0 <= snd o) os ->
  fst (counter_observations os (initial_world t0)) = Ok tt /\
  counter_value (registry (snd (counter_observations os (initial_world t0))))
    (labels_of li) == Qsum (amounts_for li os).
Proof.
  intros H.
  destruct (counter_observations_sum os li (initial_world t0) H) as [H1 H2].
  split; [exact H1|]. rewrite H2.
  change (counter_value (registry (initial_world t0)) (labels_of li)) with 0. lra.
Qed.

(** Three increments, two of them on the instance that is read. *)
Lemma counter_value_is_sum_witness :
  counter_value
    (registry
       (snd (counter_observations
               [(("GET", "/a", "200"), 1); (("GET", "/b", "200"), 2 # 1);
                (("GET", "/a", "200"), 1 # 2)]
               (initial_world 0))))
    (labels_of ("GET", "/a", "200")) ==
  Qsum (amounts_for ("GET", "/a", "200")
          [(("GET", "/a", "200"), 1); (("GET", "/b", "200"), 2 # 1);
           (("GET", "/a", "200"), 1 # 2)]).
Proof.
  apply (counter_value_is_sum_of_recorded_values
           [(("GET", "/a", "200"), 1); (("GET", "/b", "200"), 2 # 1);
            (("GET", "/a", "200"), 1 # 2)] ("GET", "/a", "200") 0).
  repeat constructor; discriminate.
Defined.

(** C4: after any sequence of histogram observations, issued against any
    label instances from the fresh registry, the cumulative bucket counts of
    a label instance are non-decreasing along the increasing bounds, there is
    one per bound, and the last one (the +Inf bucket) equals the number of
    observations recorded against that instance, as does the [_count] sample;
    one more observation on the instance raises by one the bucket whose upper
    bound is the smallest bound >= the value, and no other bucket. *)
Theorem histogram_buckets_are_cumulative
    (os : list (LabelInstance * Q)) (li : LabelInstance) (amount t0 : Q) :
  let w := snd (histogram_observations os (initial_world t0)) in
  let h := histogram_child w li in
  let h' :=
    histogram_child
      (snd (histogram_observations (os ++ [(li, amount)]) (initial_world t0))) li in
  let cum := cumulative 0 (h_buckets h) in
  let n := inject_Z (Z.of_nat (List.length (amounts_for li os))) in
  fst (histogram_observations os (initial_world t0)) = Ok tt /\
  List.length cum = List.length upper_bounds /\
  StronglySorted Qle cum /\
  last cum 0 == n /\
  histogram_count h == n /\
  exists i b,
    nth_error upper_bounds i = Some b /\
    smallest_bound_ge upper_bounds amount b /\
    forall j, nth j (h_buckets h') 0 =
              if Nat.eqb j i then nth j (h_buckets h) 0 + 1 else nth j (h_buckets h) 0.
Proof.
  intros w h h' cum n.
  destruct (histogram_observations_child os li (initial_world t0)) as [Hok Hh].
  destruct (histogram_observations_child (os ++ [(li, amount)]) li (initial_world t0))
    as [_ Hh'].
  fold w in Hh. fold h in Hh. fold h' in Hh'.
  rewrite amounts_for_snoc, observe_all_snoc in Hh'.
  change (histogram_child (initial_world t0) li) with (new_histogram t0) in Hh, Hh'.
  assert (Hwf : wf_histogram h)
    by (rewrite Hh; apply wf_observe_all, wf_new_histogram).
  assert (Hn : histogram_count h == n).
  { rewrite Hh, histogram_count_observe_all by apply wf_new_histogram.
    rewrite histogram_count_new. subst n. lra. }
  split; [exact Hok|].
  split; [subst cum; rewrite cumulative_length; apply Hwf|].
  split; [apply cumulative_sorted, Hwf|].
  split; [subst cum; rewrite (histogram_count_last h Hwf); exact Hn|].
  split; [exact Hn|].
  destruct (first_bucket_INF upper_bounds amount upper_bounds_INF) as (i & Hi & Hlt).
  destruct (nth_error upper_bounds i) as [b|] eqn:Hb.
  - exists i, b. split; [exact Hb|].
    split; [exact (first_bucket_smallest _ _ _ _ upper_bounds_sorted Hi Hb)|].
    intros j. rewrite Hh', <- Hh. cbn [histogram_observe h_buckets].
    apply bucket_inc_nth; [apply Hwf | exact Hi].
  - apply nth_error_None in Hb. lia.
Qed.

(** C5: the outcome the middleware hands back is the outcome of the handler:
    the same response object when the handler returned one, the same
    exception or process exit otherwise; and the middleware is a function of
    the single result of calling the handler on the inbound request in the
    inbound world: it calls the handler with nothing changed and does not
    call it again. *)
Theorem middleware_returns_handler_outcome
    (call_next : Request -> M Response) (request : Request) (w : World) :
  fst (prometheus_middleware call_next request w) = fst (call_next request w) /\
  exists F : Result Response * World -> Result Response * World,
    forall call_next' : Request -> M Response,
      prometheus_middleware call_next' request w = F (call_next' request w).
Proof.
  split.
  - rewrite prometheus_middleware_after_handler.
    destruct (call_next request w) as [[response|e|code] w1]; reflexivity.
  - exists (after_handler request (now w)).
    intros call_next'. apply prometheus_middleware_after_handler.
Qed.

(** C6 (as stated, it fails): the content type of the [/metrics] response is
    the [CONTENT_TYPE_LATEST] of the installed library, not the fixed text
    [text/plain; version=0.0.4]: with either value that releases of the
    library give the constant, the response carries that value; and a scrape
    whose serialization raises is answered with status 500, not 200. *)
Lemma metrics_content_type_is_the_library_constant :
  (exists response,
      fst (serve no_repr (with_content_type content_type_1_0_0 quiet_env)
             (GET "/metrics") (initial_world 0)) = Ok response /\
      status_code response = 200%Z /\
      media_type response = "text/plain; version=1.0.0; charset=utf-8" /\
      media_type response <> "text/plain; version=0.0.4") /\
  (exists response,
      fst (serve no_repr (with_content_type content_type_0_0_4 quiet_env)
             (GET "/metrics") (initial_world 0)) = Ok response /\
      status_code response = 200%Z /\
      media_type response = "text/plain; version=0.0.4; charset=utf-8" /\
      media_type response <> "text/plain; version=0.0.4") /\
  http_status
    (fst (serve_with failing_on_histogram quiet_env (GET "/metrics") (initial_world 0))) =
    Some 500%Z.
Proof.
  split; [|split].
  - eexists. split; [rewrite serve_metrics; reflexivity|].
    split; [reflexivity|]. split; [reflexivity|]. discriminate.
  - eexists. split; [rewrite serve_metrics; reflexivity|].
    split; [reflexivity|]. split; [reflexivity|]. discriminate.
  - reflexivity.
Qed.

(** C6 (amended): every [GET /metrics] request for which [generate_latest()]
    returns is answered with status 200, the content type that the installed
    library gives as [CONTENT_TYPE_LATEST], and as body the document that
    [generate_latest()] returned for the registry as it is when the handler
    runs. *)
Theorem metrics_returns_exposition
    (serialize : MetricFamily -> Exception + list string) (env : Env) (w : World)
    (body : string) :
  generate_latest_with serialize (platform env) (registry w) = inr body ->
  fst (serve_with serialize env (GET "/metrics") w) =
  Ok {| status_code := 200;
        media_type := CONTENT_TYPE_LATEST env;
        content := TextContent body |}.
Proof.
  intros H. unfold serve_with. rewrite prometheus_middleware_after_handler.
  unfold app_with, bind, sleep.
  cbn [GET method scope_path String.eqb Ascii.eqb Bool.eqb negb].
  unfold metrics. cbn [registry]. rewrite H. reflexivity.
Qed.

(** The first scrape of the fresh service, with the serializer of the text
    format. *)
Lemma metrics_returns_exposition_witness :
  fst (serve_with (fun f => inr (metric_lines no_repr f)) quiet_env (GET "/metrics")
         (initial_world 0)) =
  Ok {| status_code := 200;
        media_type := CONTENT_TYPE_LATEST quiet_env;
        content :=
          TextContent (join_lines (exposition_lines no_repr [] empty_registry)) |}.
Proof.
  apply (metrics_returns_exposition (fun f => inr (metric_lines no_repr f)) quiet_env
           (initial_world 0)).
  apply generate_latest_with_total.
Defined.

(** C7 (as stated, it fails): when the serialization of one metric (here the
    histogram) fails while the others can be serialized, the scrape is
    answered with status 500, not with a 200 that leaves that metric out. *)
Lemma metrics_fails_when_one_metric_fails :
  let scrape :=
    prometheus_middleware
      (fun _ => metrics (CONTENT_TYPE_LATEST quiet_env)
                  (generate_latest_with failing_on_histogram []))
      (GET "/metrics") (initial_world 0) in
  fst scrape = Raise (CollectError "cannot serialize histogram") /\
  http_status (fst scrape) = Some 500%Z /\
  failing_on_histogram
    (CounterMetric http_request_counter_decl []) =
    inr ["# HELP http_requests_total Total number of HTTP requests";
         "# TYPE http_requests_total counter"].
Proof. repeat split; reflexivity. Qed.

(** C7 (amended): the scrape is answered with status 200 and the lines of
    every metric when the serialization of every metric succeeds; when the
    serialization of any metric fails, the exception leaves the handler and
    the middleware: no metric is skipped, the answer is a 500 and not a 200,
    and nothing is recorded for that scrape. *)
Theorem metrics_serializes_all_or_raises
    (content_type : string)
    (serialize : MetricFamily -> Exception + list string)
    (platform : list (list string)) (request : Request) (w : World) :
  let scrape :=
    prometheus_middleware
      (fun _ => metrics content_type (generate_latest_with serialize platform))
      request w in
  ((forall f, In f (collect platform (registry w)) -> exists ls, serialize f = inr ls) ->
   exists ls,
     fst scrape = Ok (metrics_response content_type (join_lines ls)) /\
     http_status (fst scrape) = Some 200%Z /\
     forall f ls' l,
       In f (collect platform (registry w)) -> serialize f = inr ls' ->
       In l ls' -> In l ls) /\
  ((exists f, In f (collect platform (registry w)) /\ exists e, serialize f = inl e) ->
   exists e,
     fst scrape = Raise e /\
     http_status (fst scrape) = Some 500%Z /\
     snd scrape = w).
Proof.
  intros scrape. subst scrape. rewrite prometheus_middleware_after_handler.
  unfold metrics, generate_latest_with. split.
  - intros H. destruct (serialize_metrics_succeeds serialize _ H) as (ls & E & Hall).
    rewrite E. exists ls. cbn [after_handler fst http_status metrics_response status_code].
    repeat split. intros f ls' l Hf Hs Hl. eapply Hall; eauto.
  - intros H. destruct (serialize_metrics_fails serialize _ H) as (e & E).
    rewrite E. exists e. repeat split.
Qed.

(** Both cases on the fresh registry: the library's serializer, which never
    fails, and one that fails on the histogram. *)
Lemma metrics_serializes_all_or_raises_witness :
  (exists ls,
     fst (prometheus_middleware
            (fun _ => metrics (CONTENT_TYPE_LATEST quiet_env)
                        (generate_latest_with (fun f => inr (metric_lines no_repr f)) []))
            (GET "/metrics") (initial_world 0)) =
       Ok (metrics_response (CONTENT_TYPE_LATEST quiet_env) (join_lines ls))) /\
  (exists e,
     fst (prometheus_middleware
            (fun _ => metrics (CONTENT_TYPE_LATEST quiet_env)
                        (generate_latest_with failing_on_histogram []))
            (GET "/metrics") (initial_world 0)) = Raise e).
Proof.
  split.
  - destruct (proj1 (metrics_serializes_all_or_raises
                       (CONTENT_TYPE_LATEST quiet_env)
                       (fun f => inr (metric_lines no_repr f)) [] (GET "/metrics")
                       (initial_world 0))) as (ls & H & _).
    + intros f _. exists (metric_lines no_repr f). reflexivity.
    + exists ls. exact H.
  - destruct (proj2 (metrics_serializes_all_or_raises
                       (CONTENT_TYPE_LATEST quiet_env)
                       failing_on_histogram [] (GET "/metrics") (initial_world 0)))
      as (e & H & _).
    + exists (HistogramMetric request_duration_histogram_decl upper_bounds []).
      split; [right; left; reflexivity|].
      exists (CollectError "cannot serialize histogram"). reflexivity.
    + exists e. exact H.
Defined.

Lemma histogram_sum_observe_same lv d w :
  histogram_sum_of (registry (observe_request lv d w)) lv ==
  histogram_sum_of (registry w) lv + d.
Proof.
  unfold histogram_sum_of; cbn [observe_request registry request_duration_histogram].
  rewrite get_child_touch_same.
  destruct (get_child lv (request_duration_histogram (registry w))); simpl; lra.
Qed.

Lemma summary_sum_observe_same lv d w :
  summary_sum_of (registry (observe_request lv d w)) lv ==
  summary_sum_of (registry w) lv + d.
Proof.
  unfold summary_sum_of; cbn [observe_request registry request_duration_summary].
  rewrite get_child_touch_same.
  destruct (get_child lv (request_duration_summary (registry w))); simpl; lra.
Qed.

(** C8: on the fresh service, [GET /notFound] is answered with status 404 and
    a JSON body that has the key [error]; the counter of the label instance
    (GET, /notFound, 404) is then 1, and a following scrape is answered with
    an exposition that has the sample line of that instance with value 1. *)
Theorem not_found_is_counted (float_repr : Q -> string) (e1 e2 : Env) (t0 : Q) :
  let first := serve float_repr e1 (GET "/notFound") (initial_world t0) in
  let scrape := serve float_repr e2 (GET "/metrics") (snd first) in
  let line :=
    sample_line float_repr "http_requests_total"
      [("method", "GET"); ("path", "/notFound"); ("status_code", "404")] 1 in
  (exists response,
      fst first = Ok response /\ status_code response = 404%Z /\
      has_key "error" (content response) = true) /\
  counter_value (registry (snd first)) ["GET"; "/notFound"; "404"] == 1 /\
  fst scrape =
    Ok (metrics_response (CONTENT_TYPE_LATEST e2)
          (join_lines (exposition_lines float_repr (platform e2) (registry (snd first))))) /\
  In line (exposition_lines float_repr (platform e2) (registry (snd first))) /\
  line = requests_total_line "/notFound" "404" "1.0".
Proof.
  intros first scrape line.
  split; [exists not_found_response; repeat split|].
  split; [subst first; rewrite serve_not_found; vm_compute; reflexivity|].
  split; [subst scrape; rewrite serve_metrics; reflexivity|].
  split; [|reflexivity].
  assert (E : get_child ["GET"; "/notFound"; "404"]
                (http_request_counter (registry (snd first))) =
              Some {| c_value := 0 + 1; c_created := t0 + handler_seconds e1 |})
    by reflexivity.
  apply (counter_line_in_exposition float_repr (platform e2)) in E.
  exact E.
Qed.

(** C9: after any sequence of requests served from the fresh registry, on
    every label instance the value of [http_requests_total], the observation
    count of [http_request_duration_seconds] and the observation count of
    [http_request_duration_summary_seconds] are equal. *)
Theorem request_metric_counts_agree
    (float_repr : Q -> string) (requests : list (Env * Request)) (t0 : Q)
    (lv : LabelValues) :
  let r := registry (snd (run float_repr requests (initial_world t0))) in
  counter_value r lv == histogram_count_of r lv /\
  counter_value r lv == summary_count_of r lv /\
  histogram_count_of r lv == summary_count_of r lv.
Proof.
  intros r.
  destruct (Inv_run float_repr requests _ (Inv_initial t0)) as [_ H].
  destruct (H lv) as [H1 H2]. fold r in H1, H2.
  split; [exact H1|]. split; [exact H2|]. rewrite <- H1. exact H2.
Qed.

(** C10: a [GET /metrics] scrape, served after any sequence of requests, is
    answered by the [metrics] handler and is itself recorded: the counter of
    the label instance (GET, /metrics, 200) grows by 1, its histogram and its
    summary gain one observation of the elapsed time, and the registry after
    the scrape differs from the registry before it. *)
Theorem scrape_is_recorded
    (float_repr : Q -> string) (requests : list (Env * Request)) (t0 : Q) (env : Env) :
  let w := snd (run float_repr requests (initial_world t0)) in
  let scrape := serve float_repr env (GET "/metrics") w in
  let lv := ["GET"; "/metrics"; "200"] in
  let r := registry w in
  let r' := registry (snd scrape) in
  (exists body, fst scrape = Ok (metrics_response (CONTENT_TYPE_LATEST env) body)) /\
  counter_value r' lv == counter_value r lv + 1 /\
  histogram_count_of r' lv == histogram_count_of r lv + 1 /\
  histogram_sum_of r' lv == histogram_sum_of r lv + handler_seconds env /\
  summary_count_of r' lv == summary_count_of r lv + 1 /\
  summary_sum_of r' lv == summary_sum_of r lv + handler_seconds env /\
  r' <> r.
Proof.
  intros w scrape lv r r'.
  destruct (Inv_run float_repr requests _ (Inv_initial t0)) as [Hwf _]. fold w in Hwf.
  assert (Hc : counter_value r' lv == counter_value r lv + 1).
  { subst r' scrape. rewrite serve_metrics. apply counter_value_observe_same. }
  split; [subst scrape; rewrite serve_metrics; eexists; reflexivity|].
  split; [exact Hc|].
  split.
  { subst r' scrape. rewrite serve_metrics.
    apply (histogram_count_observe_same lv _
             {| registry := registry w; now := now w + handler_seconds env;
                log := log w |} Hwf). }
  split.
  { subst r' scrape. rewrite serve_metrics. cbn [snd].
    etransitivity; [apply histogram_sum_observe_same|].
    subst r. unfold histogram_sum_of; cbn [registry]. lra. }
  split.
  { subst r' scrape. rewrite serve_metrics. apply summary_count_observe_same. }
  split.
  { subst r' scrape. rewrite serve_metrics. cbn [snd].
    etransitivity; [apply summary_sum_observe_same|].
    subst r. unfold summary_sum_of; cbn [registry]. lra. }
  intros E. rewrite E in Hc. lra.
Qed.

(* ========================================================================= *)
(** * Further properties of the service *)

(** ** Routing *)

Lemma request_cases (request : Request) :
  (method request = "GET" /\ In (scope_path request) declared_paths) \/
  ((method request =? "GET") = false \/ ~ In (scope_path request) declared_paths).
Proof.
  destruct (method request =? "GET") eqn:Em; [|right; left; reflexivity].
  apply String.eqb_eq in Em.
  destruct (in_dec string_dec (scope_path request) declared_paths) as [Hin|Hout].
  - left; split; assumption.
  - right; right; assumption.
Qed.

Lemma undeclared_eqb (p q : string) :
  ~ In p declared_paths -> In q declared_paths -> (p =? q) = false.
Proof.
  intros Hout Hin. destruct (p =? q) eqn:E; [|reflexivity].
  apply String.eqb_eq in E. subst q. contradiction.
Qed.

Lemma app_with_undeclared serialize env request w :
  (method request =? "GET") = false \/ ~ In (scope_path request) declared_paths ->
  app_with serialize env request w =
  (Ok (unrouted env),
   {| registry := registry w; now := now w + handler_seconds env; log := log w |}).
Proof.
  intros [Hm|Hp]; unfold app_with, bind, sleep.
  - rewrite Hm. reflexivity.
  - destruct (method request =? "GET"); [|reflexivity]. cbn [negb].
    rewrite !(undeclared_eqb _ _ Hp) by (unfold declared_paths; simpl; tauto).
    reflexivity.
Qed.

Lemma app_undeclared float_repr env request w :
  (method request =? "GET") = false \/ ~ In (scope_path request) declared_paths ->
  app float_repr env request w =
  (Ok (unrouted env),
   {| registry := registry w; now := now w + handler_seconds env; log := log w |}).
Proof. apply app_with_undeclared. Qed.



(** ** Requests that are not answered *)

(** X1: [GET /crash] logs one error line and ends the process with exit code
    1; the middleware records nothing for it, and no later request of the
    run is served. *)
Theorem crash_ends_the_process
    (float_repr : Q -> string) (env : Env) (w : World) (rest : list (Env * Request)) :
  let served := serve float_repr env (GET "/crash") w in
  let ran := run float_repr ((env, GET "/crash") :: rest) w in
  fst served = Exit 1 /\
  registry (snd served) = registry w /\
  log (snd served) = log w ++ ["ERROR Intentionally crashing the server..."] /\
  fst ran = [Exit 1] /\
  snd ran = snd served.
Proof. repeat split. Qed.

(** X2: when the handler raises or ends the process, the middleware hands on
    that outcome and the world exactly as the handler left it: no counter,
    histogram or summary observation is made for a request that gets no
    response. *)
Theorem middleware_records_nothing_without_response
    (call_next : Request -> M Response) (request : Request) (w : World) :
  match fst (call_next request w) with
  | Ok _ => True
  | _ => prometheus_middleware call_next request w = call_next request w
  end.
Proof.
  rewrite prometheus_middleware_after_handler.
  destruct (call_next request w) as [[response|e|code] w1]; simpl; auto.
Qed.




(** ** The call to service B and the log *)

(** X4: [GET /call-service-b] never lets the failure of the outbound call
    escape: when the call raises, the exception text is logged once and the
    request is answered with status 500 and a JSON body with the key [error];
    when it returns, the answer is status 200 with the reply after the
    prefix "Service B says: " and nothing is logged.  Either way the request
    is counted under the status it was answered with. *)
Theorem call_service_b_catches_failures
    (float_repr : Q -> string) (env : Env) (w : World) :
  let served := serve float_repr env (GET "/call-service-b") w in
  let counted (status : string) :=
    counter_value (registry (snd served)) ["GET"; "/call-service-b"; status] ==
    counter_value (registry w) ["GET"; "/call-service-b"; status] + 1 in
  match service_b env with
  | inr text =>
      fst served = Ok (PlainTextResponse ("Service B says: " ++ text)) /\
      log (snd served) = log w /\
      counted "200"
  | inl e =>
      fst served =
        Ok (JSONResponse 500 [("error", JStr "Error communicating with Service B")]) /\
      log (snd served) = log w ++ [("ERROR " ++ str_exception e)%string] /\
      counted "500"
  end.
Proof.
  intros served counted. subst counted served. rewrite serve_after_handler.
  unfold app, app_with, bind, sleep, call_service_b.
  cbn [GET method scope_path String.eqb Ascii.eqb Bool.eqb negb].
  destruct (service_b env) as [e|text]; cbn [after_handler fst snd].
  - split; [reflexivity|]. split; [reflexivity|].
    exact (counter_value_observe_same ["GET"; "/call-service-b"; "500"] _
             {| registry := registry w; now := now w + handler_seconds env;
                log := log w ++ [("ERROR " ++ str_exception e)%string] |}).
  - split; [reflexivity|]. split; [reflexivity|].
    exact (counter_value_observe_same ["GET"; "/call-service-b"; "200"] _
             {| registry := registry w; now := now w + handler_seconds env;
                log := log w |}).
Qed.




(** ** The gauge of [/example] *)

Lemma timed_nonneg env w : 0 <= timed env w.
Proof.
  unfold timed. cbv zeta.
  destruct (Qle_bool 0 (now w + handler_seconds env + task_seconds env -
                        (now w + handler_seconds env))) eqn:E.
  - apply Qle_bool_iff in E. exact E.
  - lra.
Qed.

Lemma timed_task env w : 0 <= task_seconds env -> timed env w == task_seconds env.
Proof.
  intros H. unfold timed. cbv zeta.
  destruct (Qle_bool 0 (now w + handler_seconds env + task_seconds env -
                        (now w + handler_seconds env))) eqn:E.
  - lra.
  - assert (F : Qle_bool 0 (now w + handler_seconds env + task_seconds env -
                            (now w + handler_seconds env)) = true)
      by (apply Qle_bool_iff; lra).
    congruence.
Qed.

Lemma app_gauge float_repr env request w :
  gauge (registry (snd (app float_repr env request w))) =
  if (method request =? "GET") && (scope_path request =? "/example")
  then touch new_gauge (gauge_set (timed env w)) ["GET"; "running"] (gauge (registry w))
  else gauge (registry w).
Proof.
  destruct (request_cases request) as [[Hm Hin]|Hun].
  - destruct request as [m p u]. simpl in Hm, Hin. subst m.
    unfold declared_paths in Hin. simpl in Hin.
    repeat (destruct Hin as [<-|Hin]; [try reflexivity|]); try contradiction.
    + unfold app, app_with, bind, sleep.
      cbn [method scope_path String.eqb Ascii.eqb Bool.eqb negb andb].
      rewrite metrics_frame. reflexivity.
    + unfold app, app_with, bind, sleep, call_service_b.
      cbn [method scope_path String.eqb Ascii.eqb Bool.eqb negb andb].
      destruct (service_b env); reflexivity.
  - rewrite (app_undeclared _ _ _ _ Hun). cbn [snd registry].
    destruct ((method request =? "GET") && (scope_path request =? "/example")) eqn:E;
      [|reflexivity].
    exfalso. apply andb_true_iff in E. destruct E as [E1 E2].
    destruct Hun as [Hm|Hp]; [congruence|].
    apply String.eqb_eq in E2. apply Hp. rewrite E2.
    unfold declared_paths; simpl; tauto.
Qed.

Lemma after_handler_gauge request t handled :
  gauge (registry (snd (after_handler request t handled))) =
  gauge (registry (snd handled)).
Proof. destruct handled as [[r|e|code] w1]; reflexivity. Qed.

Lemma serve_gauge float_repr env request w :
  gauge (registry (snd (serve float_repr env request w))) =
  if (method request =? "GET") && (scope_path request =? "/example")
  then touch new_gauge (gauge_set (timed env w)) ["GET"; "running"] (gauge (registry w))
  else gauge (registry w).
Proof. rewrite serve_after_handler, after_handler_gauge. apply app_gauge. Qed.

(** A property of worlds that every served request keeps holds after any
    run. *)
Lemma run_preserves float_repr (P : World -> Prop) :
  (forall env request w, P w -> P (snd (serve float_repr env request w))) ->
  forall requests w, P w -> P (snd (run float_repr requests w)).
Proof.
  intros Hstep requests; induction requests as [|[env request] rest IH];
    intros w H; [exact H|].
  simpl. pose proof (Hstep env request w H) as H'.
  destruct (serve float_repr env request w) as [[r|e|code] w1]; simpl in *.
  - specialize (IH w1 H'). destruct (run float_repr rest w1); exact IH.
  - specialize (IH w1 H'). destruct (run float_repr rest w1); exact IH.
  - exact H'.
Qed.

(** X6: [GET /example] answers 200 with the text "Async task completed" and
    sets the gauge child (GET, running) to the time the task took, never to
    a negative value; the gauge holds the last task time (it is set, not
    added to), the other gauge children keep their values, and the request
    duration the middleware observes includes the task time. *)
Theorem example_sets_the_gauge
    (float_repr : Q -> string) (env : Env) (w : World) :
  let served := serve float_repr env (GET "/example") w in
  let r' := registry (snd served) in
  fst served = Ok (PlainTextResponse "Async task completed") /\
  0 <= gauge_value r' ["GET"; "running"] /\
  (0 <= task_seconds env -> gauge_value r' ["GET"; "running"] == task_seconds env) /\
  (forall lv, lv <> ["GET"; "running"] ->
              gauge_value r' lv = gauge_value (registry w) lv) /\
  histogram_sum_of r' ["GET"; "/example"; "200"] ==
  histogram_sum_of (registry w) ["GET"; "/example"; "200"] +
  handler_seconds env + task_seconds env.
Proof.
  intros served r'.
  assert (G : gauge r' =
              touch new_gauge (gauge_set (timed env w)) ["GET"; "running"]
                (gauge (registry w))).
  { subst r' served. rewrite serve_gauge. reflexivity. }
  split; [reflexivity|].
  assert (V : gauge_value r' ["GET"; "running"] = timed env w).
  { unfold gauge_value. rewrite G, get_child_touch_same. reflexivity. }
  split; [rewrite V; apply timed_nonneg|].
  split; [intros H; rewrite V; apply timed_task, H|].
  split.
  { intros lv N. unfold gauge_value. rewrite G, get_child_touch_other by exact N.
    reflexivity. }
  subst r' served. rewrite serve_after_handler.
  assert (O : fst (app float_repr env (GET "/example") w) =
              Ok (PlainTextResponse "Async task completed")) by reflexivity.
  pose proof (app_frame float_repr env (GET "/example") w) as (_ & F & _).
  pose proof (app_now float_repr env (GET "/example") w) as T.
  destruct (app float_repr env (GET "/example") w) as [[r|e|code] w1];
    cbn [fst] in O; try discriminate.
  injection O as ->. cbn [snd] in F, T.
  cbn [GET method scope_path String.eqb Ascii.eqb Bool.eqb andb] in T.
  cbn [after_handler snd].
  change (request_labels (GET "/example") (PlainTextResponse "Async task completed"))
    with ["GET"; "/example"; "200"].
  rewrite histogram_sum_observe_same. unfold histogram_sum_of. rewrite F.
  rewrite T. lra.
Qed.

(** Half a second of task time on the fresh service. *)
Lemma example_sets_the_gauge_witness :
  gauge_value
    (registry (snd (serve no_repr
                      {| handler_seconds := 0; task_seconds := 1 # 2;
                         service_b := inr "hello"; unrouted := not_found_response;
                         platform := [];
                         CONTENT_TYPE_LATEST := content_type_1_0_0 |}
                      (GET "/example") (initial_world 0))))
    ["GET"; "running"] == 1 # 2.
Proof.
  apply (proj1 (proj2 (proj2 (example_sets_the_gauge no_repr
           {| handler_seconds := 0; task_seconds := 1 # 2;
              service_b := inr "hello"; unrouted := not_found_response;
              platform := []; CONTENT_TYPE_LATEST := content_type_1_0_0 |}
           (initial_world 0))))).
  discriminate.
Defined.

Lemma gauge_single_touch v r :
  0 <= v ->
  gauge_single r ->
  touch new_gauge (gauge_set v) ["GET"; "running"] (gauge r) =
    [(["GET"; "running"], {| g_value := v |})].
Proof.
  intros _ [E|(g & E & _)]; rewrite E; reflexivity.
Qed.

(** X7: whatever requests the service has served since it started, the gauge
    [node_gauge_example] has at most one label instance, (GET, running), and
    its value is not negative: only [GET /example] reaches the gauge, and the
    middleware never touches it. *)
Theorem gauge_has_one_instance
    (float_repr : Q -> string) (requests : list (Env * Request)) (t0 : Q) :
  gauge_single (registry (snd (run float_repr requests (initial_world t0)))).
Proof.
  apply (run_preserves float_repr (fun w => gauge_single (registry w))).
  - intros env request w H. unfold gauge_single. rewrite serve_gauge.
    destruct ((method request =? "GET") && (scope_path request =? "/example")).
    + right. exists {| g_value := timed env w |}.
      split; [apply gauge_single_touch; [apply timed_nonneg | exact H]|].
      apply timed_nonneg.
    + exact H.
  - left. reflexivity.
Qed.

(** ** Counters over a run *)

Lemma counter_grew_refl r : counter_grew r r.
Proof. intros lv. split; [lra | auto]. Qed.

Lemma counter_grew_observe r0 lv d w :
  counter_grew r0 (registry w) -> counter_grew r0 (registry (observe_request lv d w)).
Proof.
  intros H lv'. destruct (H lv') as [H1 H2].
  destruct (labels_eq_dec lv' lv) as [->|N].
  - split.
    + rewrite counter_value_observe_same. lra.
    + intros _. cbn [observe_request registry http_request_counter].
      rewrite get_child_touch_same. discriminate.
  - split.
    + rewrite counter_value_observe_other by exact N. exact H1.
    + cbn [observe_request registry http_request_counter].
      rewrite get_child_touch_other by exact N. exact H2.
Qed.

Lemma counter_grew_frame r0 r r' :
  same_request_metrics r r' -> counter_grew r0 r -> counter_grew r0 r'.
Proof.
  intros (H & _) G lv. unfold counter_value. rewrite H. apply G.
Qed.

(** X8: label instances of [http_requests_total] are never dropped and their
    values never decrease: after any run from any state, every label
    instance that had a child still has one, with a value at least as
    large. *)
Theorem counter_never_decreases
    (float_repr : Q -> string) (requests : list (Env * Request)) (w : World)
    (lv : LabelValues) :
  let r' := registry (snd (run float_repr requests w)) in
  counter_value (registry w) lv <= counter_value r' lv /\
  (get_child lv (http_request_counter (registry w)) <> None ->
   get_child lv (http_request_counter r') <> None).
Proof.
  intros r'. subst r'.
  apply (run_preserves float_repr (fun w' => counter_grew (registry w) (registry w'))).
  - intros env request w0 H. rewrite serve_after_handler.
    pose proof (app_frame float_repr env request w0) as F.
    pose proof (counter_grew_frame _ _ _ F H) as H'.
    destruct (app float_repr env request w0) as [[r|e|code] w1]; simpl in *; auto.
    apply counter_grew_observe, H'.
  - apply counter_grew_refl.
Qed.

Lemma Qsum_app l1 l2 : Qsum (l1 ++ l2) == Qsum l1 + Qsum l2.
Proof.
  induction l1 as [|a l1 IH]; simpl.
  - unfold Qsum at 2; simpl. lra.
  - rewrite !Qsum_cons, IH. lra.
Qed.

Lemma total_update_child k (m : Children CounterChild) c :
  get_child k m = Some c ->
  Qsum (map (fun kc => c_value (snd kc)) (update_child k (counter_add 1) m)) ==
  Qsum (map (fun kc => c_value (snd kc)) m) + 1.
Proof.
  induction m as [|[k0 c0] m IH]; simpl; [discriminate|].
  destruct (labels_eqb k k0); simpl; intros H.
  - rewrite !Qsum_cons. simpl. lra.
  - rewrite !Qsum_cons, (IH H). lra.
Qed.

Lemma total_observe_request lv d w :
  total_requests (registry (observe_request lv d w)) ==
  total_requests (registry w) + 1.
Proof.
  unfold total_requests. cbn [observe_request registry http_request_counter].
  unfold touch.
  destruct (get_child lv (http_request_counter (registry w))) as [c|] eqn:E.
  - apply (total_update_child _ _ _ E).
  - assert (E' : get_child lv (http_request_counter (registry w) ++
                                 [(lv, new_counter (now w))]) =
                 Some (new_counter (now w))).
    { rewrite get_child_app_fresh by exact E. rewrite labels_eqb_refl. reflexivity. }
    rewrite (total_update_child _ _ _ E'), map_app, Qsum_app.
    simpl. unfold Qsum at 2. simpl. lra.
Qed.

Lemma total_frame r r' :
  same_request_metrics r r' -> total_requests r' = total_requests r.
Proof. intros (H & _). unfold total_requests. rewrite H. reflexivity. Qed.

(** X9: every answered request is counted exactly once: over any run from
    any state, the sum of [http_requests_total] over all label instances
    grows by the number of requests that were answered with a response
    (a request that ended the process is not counted). *)
Theorem answered_requests_are_conserved
    (float_repr : Q -> string) (requests : list (Env * Request)) (w : World) :
  total_requests (registry (snd (run float_repr requests w))) ==
  total_requests (registry w) +
  inject_Z (Z.of_nat (answered (fst (run float_repr requests w)))).
Proof.
  revert w; induction requests as [|[env request] rest IH]; intros w.
  - cbn [run fst snd]. change (inject_Z (Z.of_nat (answered []))) with 0. lra.
  - cbn [run].
    assert (S1 : serve float_repr env request w =
                 after_handler request (now w) (app float_repr env request w))
      by apply serve_after_handler.
    pose proof (app_frame float_repr env request w) as F.
    destruct (app float_repr env request w) as [[r|e|code] w1];
      cbn [after_handler] in S1; rewrite S1; cbn [snd] in F.
    + specialize (IH (observe_request (request_labels request r) (now w1 - now w) w1)).
      destruct (run float_repr rest _) as [os w2]. cbn [fst snd] in *.
      rewrite IH, total_observe_request, (total_frame _ _ F).
      unfold answered. cbn [filter is_response List.length].
      rewrite Nat2Z.inj_succ. unfold Z.succ. rewrite inject_Z_plus.
      change (inject_Z 1) with 1. lra.
    + specialize (IH w1).
      destruct (run float_repr rest w1) as [os w2]. cbn [fst snd] in *.
      rewrite IH, (total_frame _ _ F).
      unfold answered. cbn [filter is_response]. lra.
    + cbn [fst snd]. rewrite (total_frame _ _ F).
      change (inject_Z (Z.of_nat (answered [Exit code]))) with 0. lra.
Qed.

Lemma histogram_sum_observe_other lv lv' d w :
  lv' <> lv ->
  histogram_sum_of (registry (observe_request lv d w)) lv' =
  histogram_sum_of (registry w) lv'.
Proof.
  intros N. unfold histogram_sum_of; simpl.
  rewrite get_child_touch_other by assumption. reflexivity.
Qed.

Lemma summary_sum_observe_other lv lv' d w :
  lv' <> lv ->
  summary_sum_of (registry (observe_request lv d w)) lv' =
  summary_sum_of (registry w) lv'.
Proof.
  intros N. unfold summary_sum_of; simpl.
  rewrite get_child_touch_other by assumption. reflexivity.
Qed.

(** X10: the histogram and the summary are fed the same durations: after any
    sequence of requests served from the fresh registry, on every label
    instance the [_sum] of [http_request_duration_seconds] equals the [_sum]
    of [http_request_duration_summary_seconds]. *)
Theorem duration_sums_agree
    (float_repr : Q -> string) (requests : list (Env * Request)) (t0 : Q)
    (lv : LabelValues) :
  let r := registry (snd (run float_repr requests (initial_world t0))) in
  histogram_sum_of r lv == summary_sum_of r lv.
Proof.
  intros r. subst r. revert lv.
  apply (run_preserves float_repr (fun w => sums_agree (registry w))).
  - intros env request w H. rewrite serve_after_handler.
    pose proof (app_frame float_repr env request w) as (_ & F2 & F3).
    assert (H' : sums_agree (registry (snd (app float_repr env request w)))).
    { intros lv. unfold histogram_sum_of, summary_sum_of. rewrite F2, F3. apply H. }
    destruct (app float_repr env request w) as [[r|e|code] w1];
      cbn [after_handler snd] in *; auto.
    intros lv. destruct (labels_eq_dec lv (request_labels request r)) as [->|N].
    + rewrite histogram_sum_observe_same, summary_sum_observe_same, (H' _).
      reflexivity.
    + rewrite histogram_sum_observe_other, summary_sum_observe_other by exact N.
      apply H'.
  - intros lv. reflexivity.
Qed.

(** ** Label instances *)

Lemma str_int_inj (a b : Z) : str_int a = str_int b -> a = b.
Proof.
  unfold str_int. intros H.
  assert (R : forall z, NilZero.int_of_string (NilZero.string_of_int (Z.to_int z)) =
                        Some (Z.to_int z)).
  { intros z. apply NilZero.isi; destruct z; simpl; try discriminate;
      intros E; injection E as E; exact (Unsigned.to_uint_nonnil _ E). }
  pose proof (R a) as Ra. rewrite H, R in Ra. injection Ra as Ra.
  symmetry. apply to_int_inj, Ra.
Qed.

(** X11: the label instance of a request separates exactly method, path and
    status code: two request/response pairs are recorded on the same label
    instance if and only if they agree on all three (the conversion of the
    status code to text loses nothing), so responses with different status
    codes never share a counter. *)
Theorem label_instances_are_separate
    (request request' : Request) (response response' : Response) :
  request_labels request response = request_labels request' response' <->
  method request = method request' /\
  url_path request = url_path request' /\
  status_code response = status_code response'.
Proof.
  unfold request_labels. split.
  - intros H. injection H as H1 H2 H3. repeat split; auto using str_int_inj.
  - intros (-> & -> & ->). reflexivity.
Qed.

(** ** Static routes *)

(** X13: the routes [/], [/healthy], [/serverError] and [/notFound] are
    constant: their response depends neither on the environment nor on the
    state of the service, the handler leaves registry and log as they are,
    and when the JSON body carries a [statusCode] field it equals the HTTP
    status of the response. *)
Theorem static_routes_are_constant
    (float_repr : Q -> string) (env env' : Env) (w w' : World) (path : string) :
  In path static_paths ->
  let handled := app float_repr env (GET path) w in
  fst handled = fst (app float_repr env' (GET path) w') /\
  registry (snd handled) = registry w /\
  log (snd handled) = log w /\
  exists response,
    fst handled = Ok response /\
    (has_key "statusCode" (content response) = true ->
     json_int "statusCode" (content response) = Some (status_code response)).
Proof.
  intros Hin handled. subst handled. unfold static_paths in Hin. simpl in Hin.
  repeat (destruct Hin as [<-|Hin];
          [repeat split; eexists; split; [reflexivity|]; simpl; auto; discriminate|]).
  contradiction.
Qed.

(** The forced server error. *)
Lemma static_routes_witness :
  exists response,
    fst (app no_repr quiet_env (GET "/serverError") (initial_world 0)) = Ok response /\
    (has_key "statusCode" (content response) = true ->
     json_int "statusCode" (content response) = Some (status_code response)).
Proof.
  apply (static_routes_are_constant no_repr quiet_env quiet_env (initial_world 0)
           (initial_world 0) "/serverError").
  unfold static_paths; simpl; tauto.
Defined.
